(** * Supply-Chain-Management: the model loader and prediction utilities

    A shallow embedding of [src/utils/modelLoader.js]: the cost model cache,
    the fallback cost model, [predictManufacturingCost], [predictDemand] and
    the three-pass search [findOptimalProductionVolume]; and of the code
    around it: the data service [SupplyChainData], the handlers
    [runOptimization] and [predictCost] of the optimization panel and the
    inventory helpers of the dashboard.

    Numbers.  JavaScript numbers are IEEE-754 doubles.  In the search and
    its callers a finite number is an exact rational ([Q]) and the only
    non-finite value the code creates, the initial [lowestCost = Infinity],
    is a constructor of [number]; comparisons, [Math.round], [Math.max] and
    [Math.min] are exact on doubles as they are here, while [+], [-], [*]
    and [/] round in the source and do not here.  What is stated of the
    order of the calls and of their costs does not depend on that rounding.
    What depends on a sum being exact, or on a loop reaching its bound,
    carries a hypothesis ([resolves], [wholeNumbers], [moderate]) that
    keeps to the inputs on which double arithmetic gives the same.  The
    values of the fallback cost are those of exact arithmetic: the 1x1
    float32 tensors that carry a value into and out of [model.predict] are
    modelled by the value itself, without their rounding to single
    precision.  [predictDemand], whose result depends on the rounding of
    its products and sums, is embedded a second time on binary64 doubles
    (module [Double]).

    Effects.  The module-level [modelCache] is an explicit state threaded
    through every call.  An [await]ed call either fulfils with a value or
    rejects with an exception; a [for] loop either exits, is aborted by an
    exception, or is still running when its iteration budget is used up. *)

From Stdlib Require Import QArith Qround Qminmax Qabs ZArith List Sorted Bool Lia Lqa.
From Stdlib Require String Floats.
Import ListNotations.

Local Open Scope Q_scope.

(** ** JavaScript numbers *)

Module JS.

(** A finite number or [+Infinity]. *)
Inductive number : Type :=
| Num (q : Q)
| Infinity.

(** [a < b] on finite numbers. *)
Definition Qltb (a b : Q) : bool := negb (Qle_bool b a).

(** [cost < lowestCost], with a finite [cost]. *)
Definition lt_number (cost : Q) (lowestCost : number) : bool :=
  match lowestCost with
  | Num l => Qltb cost l
  | Infinity => true
  end.

(** The order on [number]: everything is below [Infinity]. *)
Definition le_number (a b : number) : Prop :=
  match a, b with
  | Num x, Num y => x <= y
  | _, Infinity => True
  | Infinity, Num _ => False
  end.

(** [Math.round]: the nearest integer, ties towards +Infinity. *)
Definition Math_round (x : Q) : Q := inject_Z (Qfloor (x + (1 # 2))).

Definition Math_round_number (x : number) : number :=
  match x with
  | Num q => Num (Math_round q)
  | Infinity => Infinity
  end.

(** [Math.max] and [Math.min] on finite numbers. *)
Definition Math_max (a b : Q) : Q := Qmax a b.
Definition Math_min (a b : Q) : Q := Qmin a b.

(** [Math.pow(x, 2)]. *)
Definition Math_pow2 (x : Q) : Q := x ^ 2.

End JS.
Import JS.

(** ** The model cache and the cost model *)

(** What the code uses of a model: [model.predict] on a 1x1 tensor. *)
Record Model : Type := { predict : Q -> Q }.

(** [const modelCache = { costOptimization: null, demandForecast: null }]. *)
Record ModelCache : Type := {
  costOptimization : option Model;
  demandForecast : option Model
}.

Definition emptyCache : ModelCache :=
  {| costOptimization := None; demandForecast := None |}.

(** [tf.loadLayersModel(MODEL_PATHS.costOptimization)]: the model file is
    served and parsed, or the load throws. *)
Inductive Backend : Type :=
| Available (model : Model)
| Unavailable.

(** [createFallbackModel]: the object with the hand-written [predict]. *)
Definition createFallbackModel : Model :=
  {| predict := fun value =>
       let x := value * 10000 in
       let cost := 100000 * Math_pow2 (x - 5000) / 25000000 + 10000 in
       cost / 100000 |}.

(** [loadCostOptimizationModel]: the cached model if there is one, else the
    loaded model, else (in the [catch]) the fallback model; the last two are
    stored in the cache. *)
Definition loadCostOptimizationModel (backend : Backend) (cache : ModelCache)
  : Model * ModelCache :=
  match costOptimization cache with
  | Some model => (model, cache)
  | None =>
      match backend with
      | Available model =>
          (model, {| costOptimization := Some model;
                     demandForecast := demandForecast cache |})
      | Unavailable =>
          let fallbackModel := createFallbackModel in
          (fallbackModel, {| costOptimization := Some fallbackModel;
                             demandForecast := demandForecast cache |})
      end
  end.

(** [normalizeProductionVolume(value, min = 100, max = 10000)], in exact
    arithmetic. *)
Definition normalizeProductionVolume_in (value min max : Q) : Q :=
  (value - min) / (max - min).

Definition normalizeProductionVolume (value : Q) : Q :=
  normalizeProductionVolume_in value 100 10000.

(** [denormalizeCost(normalizedCost, min = 5000, max = 100000)]. *)
Definition denormalizeCost_in (normalizedCost min max : Q) : Q :=
  normalizedCost * (max - min) + min.

Definition denormalizeCost (normalizedCost : Q) : Q :=
  denormalizeCost_in normalizedCost 5000 100000.

(** [predictManufacturingCost(productionVolume)]. *)
Definition predictManufacturingCost (backend : Backend) (productionVolume : Q)
    (cache : ModelCache) : Q * ModelCache :=
  let (model, cache') := loadCostOptimizationModel backend cache in
  let normalizedValue := normalizeProductionVolume productionVolume in
  let result := predict model normalizedValue in
  (denormalizeCost result, cache').

(** The formula of the fallback model before its output is scaled:
    [cost = 100000 * (x - 5000)^2 / 25000000 + 10000] at
    [x = normalizeProductionVolume(volume) * 10000]. *)
Definition fallbackCost (volume : Q) : Q :=
  let x := normalizeProductionVolume volume * 10000 in
  100000 * Math_pow2 (x - 5000) / 25000000 + 10000.

(** ** Demand prediction *)

Record Features : Type := {
  price : Q;
  availability : Q;
  stockLevels : Q;
  leadTimes : Q;
  orderQuantities : Q
}.

Module weights.
Definition price : Q := - (35 # 10).
Definition availability : Q := 28 # 10.
Definition stockLevels : Q := 12 # 10.
Definition leadTimes : Q := - (2 # 1).
Definition orderQuantities : Q := 8 # 10.
End weights.

Definition baseline : Q := 850.

Definition weightedSum (features : Features) : Q :=
  let weightedSum := 0 in
  let weightedSum := weightedSum + ((price features - 50) / 10) * weights.price in
  let weightedSum :=
    weightedSum + ((availability features - 75) / 25) * weights.availability in
  let weightedSum :=
    weightedSum + ((stockLevels features - 60) / 40) * weights.stockLevels in
  let weightedSum :=
    weightedSum + ((leadTimes features - 7) / 5) * weights.leadTimes in
  let weightedSum :=
    weightedSum + ((orderQuantities features - 30) / 20) * weights.orderQuantities in
  weightedSum.

(** The value of [prediction] just before the [return] of [predictDemand],
    in exact arithmetic. *)
Definition rawPrediction (features : Features) : Q :=
  let prediction := baseline + weightedSum features * 120 in
  let prediction :=
    if Qltb 100 (price features) then prediction * (7 # 10) else prediction in
  let prediction :=
    if Qltb (availability features) 30 then prediction * (6 # 10) else prediction in
  let prediction :=
    if Qltb 14 (leadTimes features) then prediction * (8 # 10) else prediction in
  prediction.

(** [predictDemand(features)]. *)
Definition predictDemand (features : Features) : Q :=
  Math_max 0 (Math_round (rawPrediction features)).

(** ** The three-pass search *)

(** How an [async] function ends: it returns, an exception escapes from it,
    or its current loop is still running after its iteration budget. *)
Inductive Completion (E A : Type) : Type :=
| Returned (a : A)
| Threw (e : E)
| Running.
Arguments Returned {E A} a.
Arguments Threw {E A} e.
Arguments Running {E A}.

(** The two loop-carried variables of the search. *)
Record Best : Type := { bestVolume : Q; lowestCost : number }.

(** [{ volume: Math.round(bestVolume), cost: Math.round(lowestCost) }]. *)
Record SearchResult : Type := { volume : Q; cost : number }.

(** One evaluator call as the search sees it: the volume passed, what the
    awaited call gave back, and the loop variables once the loop body is
    done with it. *)
Record Event (E : Type) : Type := {
  called : Q;
  answer : E + Q;
  after : Best
}.
Arguments called {E} _.
Arguments answer {E} _.
Arguments after {E} _.

(** A finished (or interrupted) run: how it ended, the state it left, and
    the evaluator calls it made, in order. *)
Record Run (St E A : Type) : Type := {
  outcome : Completion E A;
  final : St;
  trace : list (Event E)
}.
Arguments outcome {St E A} _.
Arguments final {St E A} _.
Arguments trace {St E A} _.

(** Sequencing of two parts of a run. *)
Definition andThen {St E A B} (r : Run St E A) (k : A -> St -> Run St E B)
  : Run St E B :=
  match outcome r with
  | Returned a =>
      let r' := k a (final r) in
      {| outcome := outcome r'; final := final r';
         trace := trace r ++ trace r' |}
  | Threw e => {| outcome := Threw e; final := final r; trace := trace r |}
  | Running => {| outcome := Running; final := final r; trace := trace r |}
  end.

Definition returnWith {St E A} (a : A) (s : St) : Run St E A :=
  {| outcome := Returned a; final := s; trace := [] |}.

(** [if (cost < lowestCost) { lowestCost = cost; bestVolume = volume; }]. *)
Definition update (volume cost : Q) (b : Best) : Best :=
  if lt_number cost (lowestCost b)
  then {| bestVolume := volume; lowestCost := Num cost |}
  else b.

Section SearchCode.

Variables St E : Type.

(** The awaited cost function: it may read and change the state [St], and
    fulfils with a cost or rejects with an exception. *)
Variable evaluate : Q -> St -> (E + Q) * St.

(** [for (let volume = start; volume <= max; volume += step) { ... }];
    [fuel] bounds the number of times the body runs.  The sum
    [volume + step] is exact here and rounded in the source (see
    [resolves]). *)
Fixpoint scan (fuel : nat) (step max volume : Q) (b : Best) (s : St)
  {struct fuel} : Run St E Best :=
  if Qle_bool volume max then
    match fuel with
    | O => {| outcome := Running; final := s; trace := [] |}
    | S fuel' =>
        match evaluate volume s with
        | (inl e, s') =>
            {| outcome := Threw e; final := s';
               trace := [{| called := volume; answer := inl e; after := b |}] |}
        | (inr cost, s') =>
            let b' := update volume cost b in
            let r := scan fuel' step max (volume + step) b' s' in
            {| outcome := outcome r; final := final r;
               trace := {| called := volume; answer := inr cost; after := b' |}
                          :: trace r |}
        end
    end
  else returnWith b s.

(** [findOptimalProductionVolume] with the cost function as a parameter. *)
Definition findOptimalProductionVolumeWith (fuel : nat)
    (minVolume maxVolume initialStepSize : Q) (s : St)
  : Run St E SearchResult :=
  let b0 := {| bestVolume := minVolume; lowestCost := Infinity |} in
  andThen (scan fuel initialStepSize maxVolume minVolume b0 s) (fun b1 s1 =>
  let refinedMin := Math_max minVolume (bestVolume b1 - initialStepSize) in
  let refinedMax := Math_min maxVolume (bestVolume b1 + initialStepSize) in
  let refinedStep := initialStepSize / 10 in
  andThen (scan fuel refinedStep refinedMax refinedMin b1 s1) (fun b2 s2 =>
  let finalMin := Math_max minVolume (bestVolume b2 - refinedStep) in
  let finalMax := Math_min maxVolume (bestVolume b2 + refinedStep) in
  let finalStep := refinedStep / 5 in
  andThen (scan fuel finalStep finalMax finalMin b2 s2) (fun b3 s3 =>
  returnWith {| volume := Math_round (bestVolume b3);
                cost := Math_round_number (lowestCost b3) |} s3))).

End SearchCode.
Arguments scan {St E} evaluate fuel step max volume b s.
Arguments findOptimalProductionVolumeWith {St E} evaluate fuel
  minVolume maxVolume initialStepSize s.

(** [predictManufacturingCost] as the awaited cost function of the search:
    in this model it always fulfils. *)
Definition awaitPredictManufacturingCost (backend : Backend) (volume : Q)
    (cache : ModelCache) : (Empty_set + Q) * ModelCache :=
  let (cost, cache') := predictManufacturingCost backend volume cache in
  (inr cost, cache').

(** [findOptimalProductionVolume(minVolume, maxVolume, initialStepSize)]. *)
Definition findOptimalProductionVolume (backend : Backend) (fuel : nat)
    (minVolume maxVolume initialStepSize : Q) (cache : ModelCache)
  : Run ModelCache Empty_set SearchResult :=
  findOptimalProductionVolumeWith (awaitPredictManufacturingCost backend) fuel
    minVolume maxVolume initialStepSize cache.

(** The volumes of the evaluator calls of a run, in order. *)
Definition calls {E} (tr : list (Event E)) : list Q := map called tr.

(** ** Reading a trace *)

Section Traces.

Context {E : Type}.

(** The exception of the first rejected call of a trace, if any. *)
Fixpoint failure (tr : list (Event E)) : option E :=
  match tr with
  | [] => None
  | ev :: tr' =>
      match answer ev with
      | inl e => Some e
      | inr _ => failure tr'
      end
  end.

(** The loop variables after the last call of a trace that starts with the
    loop variables [b]. *)
Fixpoint lastBest (b : Best) (tr : list (Event E)) : Best :=
  match tr with
  | [] => b
  | ev :: tr' => lastBest (after ev) tr'
  end.

(** A trace that the loop body can produce from the loop variables [b]:
    a fulfilled call is followed by [update], a rejected call leaves the
    variables alone and is the last one. *)
Fixpoint consistent (b : Best) (tr : list (Event E)) : Prop :=
  match tr with
  | [] => True
  | ev :: tr' =>
      match answer ev with
      | inr cost => after ev = update (called ev) cost b /\ consistent (after ev) tr'
      | inl _ => after ev = b /\ tr' = []
      end
  end.

(** The call fulfilled with a cost strictly above [c]. *)
Definition dearer (c : Q) (ev : Event E) : Prop :=
  match answer ev with
  | inr c' => c < c'
  | inl _ => False
  end.

(** The call fulfilled with a cost of at least [c]. *)
Definition notCheaper (c : Q) (ev : Event E) : Prop :=
  match answer ev with
  | inr c' => c <= c'
  | inl _ => False
  end.

(** [ev] is the earliest call of [tr] with the least cost of [tr]. *)
Definition earliestMinimum (tr : list (Event E)) (ev : Event E) (c : Q) : Prop :=
  exists pre post,
    tr = pre ++ ev :: post /\ answer ev = inr c /\
    Forall (dearer c) pre /\ Forall (notCheaper c) post.

(** The running [lowestCost] does not go up from one call to a later one. *)
Definition neverDearer (a b : Event E) : Prop :=
  le_number (lowestCost (after b)) (lowestCost (after a)).

End Traces.

(** What a run promises about its trace when it starts with the loop
    variables [b]: the trace is one the loop body can produce, an escaping
    exception is that of the trace, and a returned value satisfies [post] of
    the last loop variables. *)
Definition sound {St E A} (b : Best) (post : Best -> A -> Prop)
    (r : Run St E A) : Prop :=
  consistent b (trace r) /\
  match outcome r with
  | Returned a => failure (trace r) = None /\ post (lastBest b (trace r)) a
  | Threw e => failure (trace r) = Some e
  | Running => failure (trace r) = None
  end.

(** A cost function that never rejects. *)
Definition total {St E} (evaluate : Q -> St -> (E + Q) * St) : Prop :=
  forall volume s, exists c, fst (evaluate volume s) = inr c.

(** The state after a run whose every call changes the state by [g], with
    [g] idempotent: untouched if no call was made. *)
Definition stateAfter {St E} (g : St -> St) (s : St) (tr : list (Event E))
  : St :=
  match tr with
  | [] => s
  | _ :: _ => g s
  end.

(** The cache as a call of [loadCostOptimizationModel] leaves it. *)
Definition populate (backend : Backend) (cache : ModelCache) : ModelCache :=
  snd (loadCostOptimizationModel backend cache).

(** The result object built from the last loop variables. *)
Definition resultOf (b : Best) (res : SearchResult) : Prop :=
  res = {| volume := Math_round (bestVolume b);
           cost := Math_round_number (lowestCost b) |}.

(** Enough iterations for each of the three loops of a search with a
    positive step: the coarse loop runs [floor((max - min) / step) + 1]
    times at most, the others 21 and 11 times at most. *)
Definition budget (minVolume maxVolume initialStepSize : Q) : nat :=
  (21 + Z.to_nat (Qfloor ((maxVolume - minVolume) / initialStepSize) + 1))%nat.

(** ** Double arithmetic

    [predictDemand] once more, and the loop of the search, computed as the
    source computes them: every [+], [-], [*] and [/] is the operation on
    binary64 doubles, rounded to nearest, and a decimal literal is the
    double nearest to it. *)

Module Double.

Import Stdlib.Floats.PrimFloat Stdlib.Floats.SpecFloat Stdlib.Floats.FloatOps.

Local Set Warnings "-inexact-float".
Local Open Scope float_scope.

(** What a double stands for: a rational number, an infinity or [NaN]. *)
Inductive value : Type :=
| finite (q : Q)
| positiveInfinity
| negativeInfinity
| notANumber.

(** The value of a double, from its sign, mantissa and exponent; both zeros
    stand for 0. *)
Definition valueOf (x : float) : value :=
  match Prim2SF x with
  | S754_zero _ => finite 0
  | S754_infinity false => positiveInfinity
  | S754_infinity true => negativeInfinity
  | S754_nan => notANumber
  | S754_finite sign mantissa exponent =>
      let n := if sign then Z.neg mantissa else Z.pos mantissa in
      finite (Qred (if (0 <=? exponent)%Z
                    then inject_Z (n * 2 ^ exponent)
                    else n # Z.to_pos (2 ^ (- exponent))))
  end.

(** [Number.isFinite(x)]. *)
Definition isFinite (x : float) : bool :=
  match valueOf x with
  | finite _ => true
  | _ => false
  end.

(** [Math.round(x)]: the integer nearest to [x], a tie going up; an
    infinity and [NaN] are returned as they are.  The integer is given by
    its value: it is [x] itself when [x] is 2^52 or more in magnitude, and
    below 2^52 every integer is a double. *)
Definition Math_round (x : float) : value :=
  match valueOf x with
  | finite q => finite (JS.Math_round q)
  | v => v
  end.

(** [Math.max(a, b)], on the values of [a] and [b]. *)
Definition Math_max (a b : value) : value :=
  match a, b with
  | notANumber, _ | _, notANumber => notANumber
  | positiveInfinity, _ | _, positiveInfinity => positiveInfinity
  | negativeInfinity, v | v, negativeInfinity => v
  | finite x, finite y => finite (JS.Math_max x y)
  end.

Record Features : Type := {
  price : float;
  availability : float;
  stockLevels : float;
  leadTimes : float;
  orderQuantities : float
}.

Module weights.
Definition price : float := -3.5.
Definition availability : float := 2.8.
Definition stockLevels : float := 1.2.
Definition leadTimes : float := -2.0.
Definition orderQuantities : float := 0.8.
End weights.

Definition baseline : float := 850.

Definition weightedSum (features : Features) : float :=
  let weightedSum := 0 in
  let weightedSum := weightedSum + ((price features - 50) / 10) * weights.price in
  let weightedSum :=
    weightedSum + ((availability features - 75) / 25) * weights.availability in
  let weightedSum :=
    weightedSum + ((stockLevels features - 60) / 40) * weights.stockLevels in
  let weightedSum :=
    weightedSum + ((leadTimes features - 7) / 5) * weights.leadTimes in
  let weightedSum :=
    weightedSum + ((orderQuantities features - 30) / 20) * weights.orderQuantities in
  weightedSum.

(** The value of [prediction] just before the [return] of [predictDemand]. *)
Definition rawPrediction (features : Features) : float :=
  let prediction := baseline + weightedSum features * 120 in
  let prediction :=
    if 100 <? price features then prediction * 0.7 else prediction in
  let prediction :=
    if availability features <? 30 then prediction * 0.6 else prediction in
  let prediction :=
    if 14 <? leadTimes features then prediction * 0.8 else prediction in
  prediction.

(** [predictDemand(features)]. *)
Definition predictDemand (features : Features) : value :=
  Math_max (finite 0) (Math_round (rawPrediction features)).

(** All five features are finite numbers. *)
Definition realValued (features : Features) : bool :=
  isFinite (price features) && isFinite (availability features) &&
  isFinite (stockLevels features) && isFinite (leadTimes features) &&
  isFinite (orderQuantities features).

(** The features at which every term of the weighted sum is 0, but for the
    price. *)
Definition priced (p : float) : Features :=
  {| price := p; availability := 75; stockLevels := 60;
     leadTimes := 7; orderQuantities := 30 |}.

(** The double nearest to 0.1. *)
Definition tenth : float := 0.1.

Definition neutral : Features := priced 50.
Definition quarter : Features := priced 0.25.
Definition overflowing : Features := priced (-1e307).

(** A volume and a step that double addition loses at that volume. *)
Definition lostStep : float * float := (500, 1e-14).

(** *** The loop of the search on doubles *)

(** The two loop-carried variables; [lowestCost] starts as [Infinity]. *)
Record Best : Type := { bestVolume : float; lowestCost : float }.

(** How a loop ended and the volumes it passed to the cost function, in
    order. *)
Record Run (E A : Type) : Type := {
  outcome : Completion E A;
  calls : list float
}.
Arguments outcome {E A} _.
Arguments calls {E A} _.

(** [if (cost < lowestCost) { lowestCost = cost; bestVolume = volume; }]. *)
Definition update (volume cost : float) (b : Best) : Best :=
  if cost <? lowestCost b
  then {| bestVolume := volume; lowestCost := cost |}
  else b.

(** [for (let volume = start; volume <= max; volume += step) { ... }] with
    the sum [volume + step] as the source computes it; [fuel] bounds the
    number of times the body runs. *)
Fixpoint scan {St E : Type} (evaluate : float -> St -> (E + float) * St)
    (fuel : nat) (step max volume : float) (b : Best) (s : St)
    {struct fuel} : Run E Best :=
  if volume <=? max then
    match fuel with
    | O => {| outcome := Running; calls := [] |}
    | S fuel' =>
        match evaluate volume s with
        | (inl e, s') => {| outcome := Threw e; calls := [volume] |}
        | (inr cost, s') =>
            let r := scan evaluate fuel' step max (volume + step)
                       (update volume cost b) s' in
            {| outcome := outcome r; calls := volume :: calls r |}
        end
    end
  else {| outcome := Returned b; calls := [] |}.

(** A cost function that never rejects. *)
Definition total {St E} (evaluate : float -> St -> (E + float) * St) : Prop :=
  forall volume s, exists c, fst (evaluate volume s) = inr c.

(** A cost that is flat at 7 everywhere. *)
Definition constant (volume : float) (s : unit) : (Empty_set + float) * unit :=
  (inr 7, s).

End Double.

(** ** Steps and double addition

    The source adds the step to [volume] as doubles, and a sum of doubles is
    rounded to 53 significant bits: a step far below the volume it is added
    to is lost ([500 + 1e-14] is [500] again), and the loop
    [volume += step] then never exits.  Here the addition is exact, and a
    loop with a positive step always reaches its bound.  So what is stated
    of a search that returns is stated for every step; that a search
    returns is stated for the steps that double addition cannot lose.

    [resolves initialStepSize volume]: none of the three loops can lose its
    step at [volume].  The smallest step, [initialStepSize / 50], is at least
    [2^-50] times [|volume|], which is four units in the last place of
    [volume], and [initialStepSize] is at least [2^-1000], far above the
    numbers that underflow. *)
Definition resolves (initialStepSize volume : Q) : Prop :=
  1 <= inject_Z (2 ^ 1000) * initialStepSize /\
  50 * Qabs volume <= inject_Z (2 ^ 50) * initialStepSize.

(** A number far from overflow: its magnitude is at most [2^1000]. *)
Definition moderate (x : Q) : Prop := Qabs x <= inject_Z (2 ^ 1000).

(** Whole-number volumes: [minVolume] and the step are integers, the step
    is at least 1, and everything stays within [10^12].  The sums of the
    coarse loop are then integers below [2^53], which double addition gives
    exactly, and the steps of the other two loops are at least [1/50],
    which it cannot lose at such volumes. *)
Definition wholeNumbers (minVolume maxVolume initialStepSize : Q) : Prop :=
  (exists lo : Z, minVolume == inject_Z lo) /\
  (exists step : Z, initialStepSize == inject_Z step) /\
  1 <= initialStepSize /\ initialStepSize <= 10 ^ 12 /\
  - 10 ^ 12 <= minVolume /\ maxVolume <= 10 ^ 12.

(** ** Evaluators used as test inputs *)

Module Samples.

(** A cost that is 1 below volume 1/2 and 0 from there on: a flat minimum. *)
Definition flat (volume : Q) (s : unit) : (Empty_set + Q) * unit :=
  (inr (if Qle_bool (1 # 2) volume then 0 else 1), s).

(** A cost that is flat at 7 everywhere. *)
Definition constant (volume : Q) (s : unit) : (Empty_set + Q) * unit :=
  (inr 7, s).

(** An exception that carries the volume of the rejected call. *)
Inductive exn : Type := Rejected (volume : Q).

(** The cost [(volume - 3)^2], rejected on the [n]-th call; the state is
    the number of calls made so far. *)
Definition failingAt (n : nat) (volume : Q) (count : nat)
  : (exn + Q) * nat :=
  if Nat.eqb (S count) n
  then (inl (Rejected volume), S count)
  else (inr ((volume - 3) * (volume - 3)), S count).

(** The features at which every term of the weighted sum is 0. *)
Definition neutral : Features :=
  {| price := 50; availability := 75; stockLevels := 60;
     leadTimes := 7; orderQuantities := 30 |}.

(** A loaded model whose prediction is the constant 1/2. *)
Definition half : Model := {| predict := fun _ => 1 # 2 |}.

(** Features that trigger the three threshold multipliers. *)
Definition features0 : Features :=
  {| price := 120; availability := 20; stockLevels := 60;
     leadTimes := 20; orderQuantities := 30 |}.

End Samples.

(** ** More of the model loader's callers: helpers *)

(** The volume a loop that starts at [volume] reaches after [k] additions of
    [step]. *)
Fixpoint gridPoint (step volume : Q) (k : nat) : Q :=
  match k with
  | O => volume
  | S k' => gridPoint step (volume + step) k'
  end.

(** The three loops of the search, each with the loop variables and the
    state it starts from. *)
Definition coarsePass {St E} (evaluate : Q -> St -> (E + Q) * St) (fuel : nat)
    (minVolume maxVolume initialStepSize : Q) (s : St) : Run St E Best :=
  scan evaluate fuel initialStepSize maxVolume minVolume
    {| bestVolume := minVolume; lowestCost := Infinity |} s.

Definition refinementPass {St E} (evaluate : Q -> St -> (E + Q) * St)
    (fuel : nat) (minVolume maxVolume initialStepSize : Q) (b : Best) (s : St)
  : Run St E Best :=
  let refinedMin := Math_max minVolume (bestVolume b - initialStepSize) in
  let refinedMax := Math_min maxVolume (bestVolume b + initialStepSize) in
  let refinedStep := initialStepSize / 10 in
  scan evaluate fuel refinedStep refinedMax refinedMin b s.

Definition finalPass {St E} (evaluate : Q -> St -> (E + Q) * St) (fuel : nat)
    (minVolume maxVolume initialStepSize : Q) (b : Best) (s : St)
  : Run St E Best :=
  let refinedStep := initialStepSize / 10 in
  let finalMin := Math_max minVolume (bestVolume b - refinedStep) in
  let finalMax := Math_min maxVolume (bestVolume b + refinedStep) in
  let finalStep := refinedStep / 5 in
  scan evaluate fuel finalStep finalMax finalMin b s.

(** A cost function that fulfils with [F volume] whatever the state, and
    changes the state by [g]. *)
Definition costFunction {St E} (F : Q -> Q) (g : St -> St)
  : Q -> St -> (E + Q) * St :=
  fun volume s => (inr (F volume), g s).

(** The value of [prediction] in [predictDemand] before the threshold
    effects: [baseline + weightedSum * 120]. *)
Definition linearPrediction (features : Features) : Q :=
  baseline + weightedSum features * 120.

(** ** The supply chain data service ([SupplyChainData]) *)

Module SupplyChain.

Import Stdlib.Strings.String.

(** A parsed CSV row, with the columns the service reads.  Rows are taken
    to be well typed: text columns hold strings, numeric columns finite
    numbers.  (The parser can also deliver a row of empty cells, for a blank
    last line; what is proved below reads the text columns only, or no
    cell at all.) *)
Record Item : Type := {
  SKU : string;
  Product_type : string;
  Price : Q;
  Availability : Q;
  Number_of_products_sold : Q;
  Revenue_generated : Q;
  Stock_levels : Q;
  Lead_time : Q;
  Shipping_carriers : string;
  Shipping_costs : Q;
  Shipping_times : Q;
  Supplier_name : string;
  Location : string;
  Manufacturing_costs : Q;
  Defect_rates : Q;
  Transportation_modes : string
}.

(** The fields of a [SupplyChainData] instance. *)
Record SupplyChainData : Type := {
  data : list Item;
  isLoaded : bool;
  productTypes : list string;
  suppliers : list string;
  locations : list string;
  transportModes : list string;
  carriers : list string
}.

(** [constructor()]. *)
Definition constructor : SupplyChainData :=
  {| data := []; isLoaded := false; productTypes := []; suppliers := [];
     locations := []; transportModes := []; carriers := [] |}.

(** [[...new Set(values)]]: the values in the order of their first
    occurrence; [seen] holds the values already in the set. *)
Fixpoint uniqueFrom (seen values : list string) : list string :=
  match values with
  | [] => []
  | value :: rest =>
      if existsb (eqb value) seen
      then uniqueFrom seen rest
      else value :: uniqueFrom (value :: seen) rest
  end.

Definition unique (values : list string) : list string := uniqueFrom [] values.

(** [extractMetadata()]. *)
Definition extractMetadata (this : SupplyChainData) : SupplyChainData :=
  if negb (isLoaded this) || Nat.eqb (List.length (data this)) 0 then this
  else
    {| data := data this;
       isLoaded := isLoaded this;
       productTypes := unique (map Product_type (data this));
       suppliers := unique (map Supplier_name (data this));
       locations := unique (map Location (data this));
       transportModes := unique (map Transportation_modes (data this));
       carriers := unique (map Shipping_carriers (data this)) |}.

(** The [complete] callback of [loadData], called by the CSV parser with the
    parsed rows. *)
Definition loadData_complete (results : list Item) (this : SupplyChainData)
  : SupplyChainData :=
  extractMetadata
    {| data := results;
       isLoaded := true;
       productTypes := productTypes this;
       suppliers := suppliers this;
       locations := locations this;
       transportModes := transportModes this;
       carriers := carriers this |}.

(** [getAllData()]. *)
Definition getAllData (this : SupplyChainData) : list Item := data this.

(** [getDataByProductType(productType)]. *)
Definition getDataByProductType (this : SupplyChainData) (productType : string)
  : list Item :=
  filter (fun item => eqb (Product_type item) productType) (data this).

(** [getDataBySupplier(supplier)]. *)
Definition getDataBySupplier (this : SupplyChainData) (supplier : string)
  : list Item :=
  filter (fun item => eqb (Supplier_name item) supplier) (data this).

(** [items.reduce((sum, item) => sum + item[field], 0)]. *)
Definition sumOf (field : Item -> Q) (items : list Item) : Q :=
  fold_left (fun sum item => sum + field item) items 0.

(** [a / b] on finite numbers: [None] stands for the values that are not
    finite ([NaN] and the infinities), which a zero divisor gives. *)
Definition divide (a b : Q) : option Q :=
  if Qeq_bool b 0 then None else Some (a / b).

(** [items.length] as a number. *)
Definition lengthOf {A} (items : list A) : Q :=
  inject_Z (Z.of_nat (List.length items)).

(** [obj[key] = value] on an object: an existing key keeps its place. *)
Fixpoint setKey {A} (key : string) (value : A) (obj : list (string * A))
  : list (string * A) :=
  match obj with
  | [] => [(key, value)]
  | (k, v) :: rest =>
      if eqb k key then (key, value) :: rest
      else (k, v) :: setKey key value rest
  end.

(** [obj[key]]. *)
Fixpoint getKey {A} (key : string) (obj : list (string * A)) : option A :=
  match obj with
  | [] => None
  | (k, v) :: rest => if eqb k key then Some v else getKey key rest
  end.

Record SalesEntry : Type := {
  totalSales : Q;
  totalRevenue : Q;
  averagePrice : option Q
}.

(** [getSalesData()]. *)
Definition getSalesData (this : SupplyChainData) : list (string * SalesEntry) :=
  fold_left
    (fun salesByProduct type =>
       let products := getDataByProductType this type in
       let totalSales := sumOf Number_of_products_sold products in
       let totalRevenue := sumOf Revenue_generated products in
       setKey type
         {| totalSales := totalSales;
            totalRevenue := totalRevenue;
            averagePrice := divide totalRevenue totalSales |}
         salesByProduct)
    (productTypes this) [].

Record SupplierEntry : Type := {
  supplier : string;
  avgLeadTime : option Q;
  avgDefectRate : option Q;
  totalProducts : nat;
  supplierLocations : list string
}.

(** [getSupplierPerformance()]. *)
Definition getSupplierPerformance (this : SupplyChainData) : list SupplierEntry :=
  fold_left
    (fun supplierPerformance supplier =>
       let supplierData := getDataBySupplier this supplier in
       let avgLeadTime :=
         divide (sumOf Lead_time supplierData) (lengthOf supplierData) in
       let avgDefectRate :=
         divide (sumOf Defect_rates supplierData) (lengthOf supplierData) in
       supplierPerformance ++
       [{| supplier := supplier;
           avgLeadTime := avgLeadTime;
           avgDefectRate := avgDefectRate;
           totalProducts := List.length supplierData;
           supplierLocations := unique (map Location supplierData) |}])
    (suppliers this) [].

(** [keys] lists each value of the column [field] of [rows] once. *)
Definition indexes (field : Item -> string) (rows : list Item)
    (keys : list string) : Prop :=
  NoDup keys /\
  forall key, In key keys <-> exists item, In item rows /\ field item = key.

(** The five lists of an instance are those of its rows. *)
Definition metadataOf (this : SupplyChainData) : Prop :=
  indexes Product_type (data this) (productTypes this) /\
  indexes Supplier_name (data this) (suppliers this) /\
  indexes Location (data this) (locations this) /\
  indexes Transportation_modes (data this) (transportModes this) /\
  indexes Shipping_carriers (data this) (carriers this).

(** Sample rows. *)
Definition sampleItem (sku type supplierName : string) (sold stock lead : Q)
  : Item :=
  {| SKU := sku; Product_type := type; Price := 10; Availability := 50;
     Number_of_products_sold := sold; Revenue_generated := sold * 10;
     Stock_levels := stock; Lead_time := lead;
     Shipping_carriers := "Carrier A"%string; Shipping_costs := 5;
     Shipping_times := 3; Supplier_name := supplierName;
     Location := "Mumbai"%string; Manufacturing_costs := 20; Defect_rates := 1;
     Transportation_modes := "Road"%string |}.

Definition sampleRows : list Item :=
  [ sampleItem "SKU0"%string "haircare"%string "Supplier 3"%string 802 58 7;
    sampleItem "SKU1"%string "skincare"%string "Supplier 3"%string 736 53 30;
    sampleItem "SKU2"%string "haircare"%string "Supplier 1"%string 8 1 10 ].

Definition sampleProductTypes : list string :=
  ["haircare"%string; "skincare"%string].

End SupplyChain.

(** ** The dashboard's inventory helpers *)

Module Dashboard.

(** The progress bar variants. *)
Inductive Variant : Type := info | success | warning | danger.

(** [calculateUsagePercentage(stock, capacity)]; [None] stands for a result
    that is not finite, which a zero capacity gives.  The quotient and the
    product are exact here and rounded in the source, so the two can differ
    by 1 when [stock / capacity * 100] is within rounding of a half. *)
Definition calculateUsagePercentage (stock capacity : Q) : option Q :=
  match SupplyChain.divide stock capacity with
  | Some ratio => Some (Math_round (ratio * 100))
  | None => None
  end.

(** [getProgressBarVariant(percentage)]. *)
Definition getProgressBarVariant (percentage : Q) : Variant :=
  if Qltb percentage 30 then info
  else if Qltb percentage 60 then success
  else if Qltb percentage 85 then warning
  else danger.

End Dashboard.

(** ** The optimization panel ([Optimization.jsx]) *)

Module Optimization.

(** The [labels] and the [data] of the one dataset of [costChartData]. *)
Record ChartData : Type := { labels : list Q; costs : list Q }.

(** The state variables of the component that its two handlers read or
    write. *)
Record State : Type := {
  productionVolume : Q;
  predictedCost : option Q;
  minVolume : Q;
  maxVolume : Q;
  stepSize : Q;
  optimalVolume : option SearchResult;
  costChartData : option ChartData;
  isLoading : bool;
  optimizationDone : bool;
  error : option String.string
}.

(** The initial state: the [useState] defaults. *)
Definition initial : State :=
  {| productionVolume := 500; predictedCost := None;
     minVolume := 100; maxVolume := 1000; stepSize := 50;
     optimalVolume := None; costChartData := None;
     isLoading := false; optimizationDone := false; error := None |}.

(** The state at the start of both handlers: [setIsLoading(true)],
    [setError(null)] and, in [runOptimization],
    [setOptimizationDone(false)]. *)
Definition started (st : State) (done : bool) : State :=
  {| productionVolume := productionVolume st; predictedCost := predictedCost st;
     minVolume := minVolume st; maxVolume := maxVolume st;
     stepSize := stepSize st;
     optimalVolume := optimalVolume st; costChartData := costChartData st;
     isLoading := true; optimizationDone := done; error := None |}.

(** [predictCost]: in this model [predictManufacturingCost] always fulfils,
    so the [catch] is never entered. *)
Definition predictCost (backend : Backend) (st : State) (cache : ModelCache)
  : State * ModelCache :=
  let st := started st (optimizationDone st) in
  let (cost, cache') :=
    predictManufacturingCost backend (productionVolume st) cache in
  ({| productionVolume := productionVolume st; predictedCost := Some cost;
      minVolume := minVolume st; maxVolume := maxVolume st;
      stepSize := stepSize st;
      optimalVolume := optimalVolume st; costChartData := costChartData st;
      isLoading := false; optimizationDone := optimizationDone st;
      error := error st |}, cache').

(** The loop of [runOptimization] that fills [labels] and [costs]:
    [for (let vol = minVolume; vol <= maxVolume; vol += stepSize)];
    [fuel] bounds the number of times the body runs, [None] is a loop
    still running after them.  As in [scan], the sum [vol + step] is exact
    here. *)
Fixpoint chartLoop (fuel : nat) (backend : Backend) (step max vol : Q)
    (labels costs : list Q) (cache : ModelCache) {struct fuel}
  : option ChartData * ModelCache :=
  if Qle_bool vol max then
    match fuel with
    | O => (None, cache)
    | S fuel' =>
        let (costAtVolume, cache') :=
          predictManufacturingCost backend vol cache in
        chartLoop fuel' backend step max (vol + step)
          (labels ++ [vol]) (costs ++ [costAtVolume]) cache'
    end
  else (Some {| labels := labels; costs := costs |}, cache).

(** [runOptimization]: the state it leaves and whether it came to its end
    ([false]: one of its loops is still running after [fuel] iterations).
    Neither awaited function rejects in this model, so the [catch] is never
    entered. *)
Definition runOptimization (fuel : nat) (backend : Backend) (st : State)
    (cache : ModelCache) : bool * State * ModelCache :=
  let st := started st false in
  let search :=
    findOptimalProductionVolume backend fuel
      (minVolume st) (maxVolume st) (stepSize st) cache in
  match outcome search with
  | Returned result =>
      let st :=
        {| productionVolume := productionVolume st;
           predictedCost := predictedCost st;
           minVolume := minVolume st; maxVolume := maxVolume st;
           stepSize := stepSize st;
           optimalVolume := Some result; costChartData := costChartData st;
           isLoading := isLoading st; optimizationDone := optimizationDone st;
           error := error st |} in
      match chartLoop fuel backend (stepSize st) (maxVolume st) (minVolume st)
              [] [] (final search) with
      | (Some chart, cache') =>
          (true,
           {| productionVolume := productionVolume st;
              predictedCost := predictedCost st;
              minVolume := minVolume st; maxVolume := maxVolume st;
              stepSize := stepSize st;
              optimalVolume := optimalVolume st; costChartData := Some chart;
              isLoading := false; optimizationDone := true;
              error := error st |}, cache')
      | (None, cache') => (false, st, cache')
      end
  | Threw e => match e with end
  | Running => (false, st, final search)
  end.

(** The caches from which [backend] makes every load return [model]. *)
Definition serves (backend : Backend) (model : Model) (cache : ModelCache)
  : Prop :=
  fst (loadCostOptimizationModel backend cache) = model.

(** The cost [predictManufacturingCost] computes with the model [model]. *)
Definition costWith (model : Model) (volume : Q) : Q :=
  denormalizeCost (predict model (normalizeProductionVolume volume)).

End Optimization.

(** * Facts *)

(** ** Comparisons and rounding *)

Lemma Qltb_iff (a b : Q) : Qltb a b = true <-> a < b.
Proof.
  unfold Qltb. rewrite negb_true_iff. split.
  - intros H. apply Qnot_le_lt. intros Hle.
    apply Qle_bool_iff in Hle. congruence.
  - intros H. destruct (Qle_bool b a) eqn:Hb; [|reflexivity].
    apply Qle_bool_iff in Hb. exfalso. exact (Qlt_not_le _ _ H Hb).
Qed.

Lemma Qltb_false_iff (a b : Q) : Qltb a b = false <-> b <= a.
Proof.
  unfold Qltb. rewrite negb_false_iff. apply Qle_bool_iff.
Qed.

Lemma Qle_bool_false (a b : Q) : Qle_bool a b = false -> b < a.
Proof.
  intros H. apply Qnot_le_lt. intros Hle.
  apply Qle_bool_iff in Hle. congruence.
Qed.

Lemma le_number_refl (a : number) : le_number a a.
Proof. destruct a; simpl; [apply Qle_refl | exact I]. Qed.

Lemma le_number_trans (a b c : number) :
  le_number a b -> le_number b c -> le_number a c.
Proof.
  destruct a, b, c; simpl; try tauto. apply Qle_trans.
Qed.

Lemma Math_max_lower (a b : Q) : a <= Math_max a b.
Proof. apply Q.le_max_l. Qed.

Lemma Math_max_lower_r (a b : Q) : b <= Math_max a b.
Proof. apply Q.le_max_r. Qed.

Lemma Math_min_upper (a b : Q) : Math_min a b <= a.
Proof. apply Q.le_min_l. Qed.

Lemma Math_min_upper_r (a b : Q) : Math_min a b <= b.
Proof. apply Q.le_min_r. Qed.

Lemma Math_max_left (a b : Q) : b <= a -> Math_max a b = a.
Proof.
  intros H. unfold Math_max, Qmax, GenericMinMax.gmax.
  destruct (a ?= b) eqn:C; try reflexivity.
  apply Qlt_alt in C. exfalso. exact (Qlt_not_le _ _ C H).
Qed.

Lemma Math_max_right (a b : Q) : a < b -> Math_max a b = b.
Proof.
  intros H. unfold Math_max, Qmax, GenericMinMax.gmax.
  destruct (a ?= b) eqn:C; try reflexivity.
  - apply Qeq_alt in C. exfalso. lra.
  - apply Qgt_alt in C. exfalso. lra.
Qed.

Lemma Math_min_left (a b : Q) : a <= b -> Math_min a b = a.
Proof.
  intros H. unfold Math_min, Qmin, GenericMinMax.gmin.
  destruct (a ?= b) eqn:C; try reflexivity.
  apply Qgt_alt in C. exfalso. exact (Qlt_not_le _ _ C H).
Qed.

Lemma Math_round_near (x : Q) :
  x - (1 # 2) < Math_round x /\ Math_round x <= x + (1 # 2).
Proof.
  unfold Math_round. split.
  - pose proof (Qlt_floor (x + (1 # 2))) as H.
    rewrite inject_Z_plus in H.
    set (z := inject_Z (Qfloor (x + (1 # 2)))) in *.
    change (inject_Z 1) with 1 in H. lra.
  - apply Qfloor_le.
Qed.

(** [Math.max(0, Math.round(p))] is a non-negative integer: 0 when [p] is
    below -1/2, and otherwise the integer nearest to [p], a tie going up. *)
Lemma round_and_clamp (p : Q) :
  exists n : Z,
    Math_max 0 (Math_round p) = inject_Z n /\
    (0 <= n)%Z /\
    n = Z.max 0 (Qfloor (p + (1 # 2))) /\
    ((p < - (1 # 2) /\ n = 0%Z) \/
     (p - (1 # 2) < inject_Z n /\ inject_Z n <= p + (1 # 2))).
Proof.
  unfold Math_round.
  set (z := Qfloor (p + (1 # 2))).
  pose proof (Qfloor_le (p + (1 # 2))) as Hlo.
  pose proof (Qlt_floor (p + (1 # 2))) as Hhi.
  fold z in Hlo, Hhi.
  rewrite inject_Z_plus in Hhi. change (inject_Z 1) with 1 in Hhi.
  destruct (Z.max_spec 0 z) as [[Hlt Hmax]|[Hge Hmax]].
  - exists z. rewrite Hmax.
    assert (Hq : 0 < inject_Z z)
      by (change 0 with (inject_Z 0); rewrite <- Zlt_Qlt; exact Hlt).
    split.
    + apply Math_max_right. exact Hq.
    + split; [lia|]. split; [reflexivity|]. right. split; lra.
  - exists 0%Z. rewrite Hmax.
    assert (Hq : inject_Z z <= 0)
      by (change 0 with (inject_Z 0); rewrite <- Zle_Qle; exact Hge).
    split.
    + change (inject_Z 0) with 0. apply Math_max_left. exact Hq.
    + split; [lia|]. split; [reflexivity|].
      destruct (Z.eq_dec z 0) as [Hz|Hz].
      * right. rewrite Hz in Hlo, Hhi. change (inject_Z 0) with 0 in *.
        split; lra.
      * left. split; [|reflexivity].
        assert (Hz1 : (z + 1 <= 0)%Z) by lia.
        rewrite Zle_Qle in Hz1. rewrite inject_Z_plus in Hz1.
        change (inject_Z 1) with 1 in Hz1. change (inject_Z 0) with 0 in Hz1.
        lra.
Qed.

(** ** One step of the running minimum *)

Lemma update_le (volume cost : Q) (b : Best) :
  le_number (lowestCost (update volume cost b)) (lowestCost b).
Proof.
  unfold update. destruct (lt_number cost (lowestCost b)) eqn:H.
  - destruct (lowestCost b) as [l|]; simpl in *; [|exact I].
    apply Qltb_iff in H. apply Qlt_le_weak, H.
  - apply le_number_refl.
Qed.

Lemma update_le_cost (volume cost : Q) (b : Best) :
  le_number (lowestCost (update volume cost b)) (Num cost).
Proof.
  unfold update. destruct (lt_number cost (lowestCost b)) eqn:H.
  - simpl. apply Qle_refl.
  - destruct (lowestCost b) as [l|]; simpl in *; [|discriminate].
    apply Qltb_false_iff in H. exact H.
Qed.

(** ** Sequencing *)

Section SequencingFacts.

Context {St E : Type}.

Lemma andThen_trace {A B} (r : Run St E A) (k : A -> St -> Run St E B) :
  trace (andThen r k) =
  trace r ++ match outcome r with
             | Returned a => trace (k a (final r))
             | _ => []
             end.
Proof.
  unfold andThen. destruct (outcome r); simpl; auto using app_nil_r.
Qed.

Lemma andThen_returned {A B} (r : Run St E A) (k : A -> St -> Run St E B) a :
  outcome r = Returned a ->
  andThen r k =
  {| outcome := outcome (k a (final r)); final := final (k a (final r));
     trace := trace r ++ trace (k a (final r)) |}.
Proof. intros H. unfold andThen. rewrite H. reflexivity. Qed.

Lemma andThen_record {A B} (a : A) (s : St) (t : list (Event E))
    (k : A -> St -> Run St E B) :
  andThen {| outcome := Returned a; final := s; trace := t |} k =
  {| outcome := outcome (k a s); final := final (k a s);
     trace := t ++ trace (k a s) |}.
Proof. reflexivity. Qed.

Lemma andThen_ext {A B} (r : Run St E A) (k k' : A -> St -> Run St E B) :
  (forall a, outcome r = Returned a -> k a (final r) = k' a (final r)) ->
  andThen r k = andThen r k'.
Proof.
  intros H. unfold andThen. destruct (outcome r); try reflexivity.
  now rewrite H.
Qed.

Lemma andThen_exits {A B} (r : Run St E A) (k : A -> St -> Run St E B) :
  outcome (andThen r k) <> Running ->
  outcome r <> Running /\
  forall a, outcome r = Returned a -> outcome (k a (final r)) <> Running.
Proof.
  unfold andThen. destruct (outcome r); simpl; intros H; split;
    try discriminate; try (now elim H); intros a' Ha; try discriminate.
  injection Ha as <-. exact H.
Qed.

Lemma failure_app (t1 t2 : list (Event E)) :
  failure (t1 ++ t2) =
  match failure t1 with Some e => Some e | None => failure t2 end.
Proof.
  induction t1 as [|ev t1 IH]; simpl; [now destruct (failure t2)|].
  destruct (answer ev); auto.
Qed.

Lemma lastBest_app (b : Best) (t1 t2 : list (Event E)) :
  lastBest b (t1 ++ t2) = lastBest (lastBest b t1) t2.
Proof.
  revert b. induction t1 as [|ev t1 IH]; intros b; simpl; auto.
Qed.

Lemma consistent_app (b : Best) (t1 t2 : list (Event E)) :
  consistent b t1 -> failure t1 = None ->
  consistent (lastBest b t1) t2 -> consistent b (t1 ++ t2).
Proof.
  revert b. induction t1 as [|ev t1 IH]; intros b H1 Hf H2; simpl in *; auto.
  destruct (answer ev); [discriminate|].
  destruct H1 as [Ha H1]. split; auto.
Qed.

Lemma consistent_failure_last (b : Best) (pre post : list (Event E)) ev e :
  consistent b (pre ++ ev :: post) -> answer ev = inl e ->
  post = [] /\ failure pre = None /\ failure (pre ++ ev :: post) = Some e.
Proof.
  revert b. induction pre as [|x pre IH]; intros b H He; simpl in *.
  - rewrite He in *. destruct H as [_ H]. auto.
  - destruct (answer x) eqn:Hx.
    + destruct H as [_ H]. destruct pre; discriminate.
    + destruct H as [_ H]. eapply IH; eauto.
Qed.

Lemma returnWith_sound {A} (b : Best) (post : Best -> A -> Prop) a (s : St) :
  post b a -> sound (E := E) b post (returnWith a s).
Proof. intros H. unfold sound, returnWith. simpl. auto. Qed.

Lemma andThen_sound {A} (b : Best) (post : Best -> A -> Prop)
    (r : Run St E Best) (k : Best -> St -> Run St E A) :
  sound b eq r ->
  (forall b1 s1, sound b1 post (k b1 s1)) ->
  sound b post (andThen r k).
Proof.
  intros [Hc Ho] Hk. unfold sound, andThen.
  destruct (outcome r) as [b1|e|]; simpl; [|split; assumption..].
  destruct Ho as [Hf Hb]. subst b1.
  destruct (Hk (lastBest b (trace r)) (final r)) as [Hc2 Ho2].
  split.
  - apply consistent_app; assumption.
  - rewrite failure_app, Hf, lastBest_app. exact Ho2.
Qed.

End SequencingFacts.

(** ** Traces the loop body can produce *)

Section TraceFacts.

Context {E : Type}.

Lemma lt_number_trans (c' c : Q) (l : number) :
  lt_number c' (Num c) = true -> lt_number c l = true ->
  lt_number c' l = true.
Proof.
  destruct l as [l|]; simpl; [|reflexivity].
  rewrite !Qltb_iff. apply Qlt_trans.
Qed.

(** The running [lowestCost] of a trace never goes up, and never exceeds
    the value it started from. *)
Lemma consistent_sorted (b : Best) (tr : list (Event E)) :
  consistent b tr ->
  StronglySorted neverDearer tr /\
  Forall (fun ev => le_number (lowestCost (after ev)) (lowestCost b)) tr.
Proof.
  revert b. induction tr as [|ev tr IH]; intros b H; simpl in H.
  - split; constructor.
  - destruct (answer ev) as [e|c] eqn:Ha; destruct H as [Hb H].
    + subst tr. split; repeat constructor.
      rewrite Hb. apply le_number_refl.
    + destruct (IH _ H) as [Hs Hf].
      assert (Hle : le_number (lowestCost (after ev)) (lowestCost b))
        by (rewrite Hb; apply update_le).
      split.
      * constructor; [exact Hs | exact Hf].
      * constructor; [exact Hle|].
        eapply Forall_impl; [|exact Hf]. intros x Hx. simpl in Hx.
        exact (le_number_trans _ _ _ Hx Hle).
Qed.

(** After each fulfilled call the running [lowestCost] is at most the cost
    of that call. *)
Lemma consistent_tracks (b : Best) (tr : list (Event E)) :
  consistent b tr ->
  Forall (fun ev => match answer ev with
                    | inr c => le_number (lowestCost (after ev)) (Num c)
                    | inl _ => True
                    end) tr.
Proof.
  revert b. induction tr as [|ev tr IH]; intros b H; simpl in H;
    constructor.
  - destruct (answer ev) as [e|c]; [exact I|].
    destruct H as [-> _]. apply update_le_cost.
  - destruct (answer ev) as [e|c]; destruct H as [_ H].
    + subst tr. constructor.
    + eapply IH, H.
Qed.

(** After a trace without rejected calls the loop variables are either
    untouched, no call having been cheaper than the starting
    [lowestCost], or those of the earliest call with the least cost. *)
Lemma consistent_earliest (b : Best) (tr : list (Event E)) :
  consistent b tr -> failure tr = None ->
  (lastBest b tr = b /\
   Forall (fun ev => match answer ev with
                     | inr c => le_number (lowestCost b) (Num c)
                     | inl _ => False
                     end) tr) \/
  (exists ev c,
     earliestMinimum tr ev c /\
     lastBest b tr = {| bestVolume := called ev; lowestCost := Num c |} /\
     lt_number c (lowestCost b) = true).
Proof.
  revert b. induction tr as [|ev tr IH]; intros b H Hf; simpl in *.
  - left. split; constructor.
  - destruct (answer ev) as [e|c] eqn:Ha; [discriminate|].
    destruct H as [Hb H]. specialize (IH _ H Hf).
    unfold update in Hb.
    destruct (lt_number c (lowestCost b)) eqn:Hlt.
    + right. destruct IH as [[Hl Hall]|(ev' & c' & Hmin & Hl & Hlt')].
      * exists ev, c. rewrite Hl. split; [|split; [exact Hb | exact Hlt]].
        exists [], tr. rewrite Hb in Hall. simpl in Hall.
        repeat split; auto.
      * exists ev', c'. rewrite Hb in Hlt'.
        split; [|split; [exact Hl | eapply lt_number_trans; eassumption]].
        destruct Hmin as (pre & post & Htr & Ha' & Hpre & Hpost).
        exists (ev :: pre), post. subst tr. repeat split; auto.
        constructor; [|exact Hpre].
        unfold dearer. rewrite Ha. simpl in Hlt'. apply Qltb_iff, Hlt'.
    + rewrite Hb in IH.
      destruct (lowestCost b) as [l|] eqn:Hlow; simpl in Hlt; [|discriminate].
      apply Qltb_false_iff in Hlt.
      destruct IH as [[Hl Hall]|(ev' & c' & Hmin & Hl & Hlt')].
      * left. rewrite Hb. split; [exact Hl|].
        constructor; [rewrite Ha; exact Hlt | exact Hall].
      * right. exists ev', c'. rewrite Hb.
        split; [|split; [exact Hl | exact Hlt']].
        destruct Hmin as (pre & post & Htr & Ha' & Hpre & Hpost).
        exists (ev :: pre), post. subst tr. repeat split; auto.
        constructor; [|exact Hpre].
        unfold dearer. rewrite Ha. simpl in Hlt'. apply Qltb_iff in Hlt'.
        eapply Qlt_le_trans; eassumption.
Qed.

End TraceFacts.

(** ** The loop and the three passes, for any cost function *)

Section SearchFacts.

Variables St E : Type.
Variable evaluate : Q -> St -> (E + Q) * St.

Lemma scan_sound fuel step max volume b s :
  sound b eq (scan evaluate fuel step max volume b s).
Proof.
  revert volume b s.
  induction fuel as [|fuel IH]; intros volume b s; simpl;
    destruct (Qle_bool volume max); try (now apply returnWith_sound).
  - unfold sound. simpl. auto.
  - destruct (evaluate volume s) as [[e|c] s'].
    + unfold sound. simpl. auto.
    + specialize (IH (volume + step) (update volume c b) s').
      destruct IH as [Hc Ho]. unfold sound. simpl. auto.
Qed.

Lemma search_sound fuel minVolume maxVolume initialStepSize s :
  sound {| bestVolume := minVolume; lowestCost := Infinity |} resultOf
    (findOptimalProductionVolumeWith evaluate fuel
       minVolume maxVolume initialStepSize s).
Proof.
  unfold findOptimalProductionVolumeWith.
  apply andThen_sound; [apply scan_sound|]. intros b1 s1.
  apply andThen_sound; [apply scan_sound|]. intros b2 s2.
  apply andThen_sound; [apply scan_sound|]. intros b3 s3.
  apply returnWith_sound. reflexivity.
Qed.

(** The volumes a loop passes to the cost function lie between its start
    and its bound. *)
Lemma scan_range fuel step max lo volume b s :
  0 <= step -> lo <= volume ->
  Forall (fun ev => lo <= called ev /\ called ev <= max)
         (trace (scan evaluate fuel step max volume b s)).
Proof.
  intros Hstep. revert volume b s.
  induction fuel as [|fuel IH]; intros volume b s Hlo; simpl;
    destruct (Qle_bool volume max) eqn:G; simpl; try constructor.
  apply Qle_bool_iff in G.
  destruct (evaluate volume s) as [[e|c] s']; simpl.
  - constructor; [split; assumption | constructor].
  - constructor; [split; assumption|].
    apply IH. lra.
Qed.

Lemma scan_window fuel step radius center minVolume maxVolume b s :
  0 <= step ->
  Forall (fun ev => minVolume <= called ev /\ called ev <= maxVolume)
    (trace (scan evaluate fuel step
              (Math_min maxVolume (center + radius))
              (Math_max minVolume (center - radius)) b s)).
Proof.
  intros Hstep.
  eapply Forall_impl;
    [|apply scan_range with (lo := Math_max minVolume (center - radius));
      [exact Hstep | apply Qle_refl]].
  intros ev [H1 H2]. split.
  - eapply Qle_trans; [apply Math_max_lower | exact H1].
  - eapply Qle_trans; [exact H2 | apply Math_min_upper].
Qed.

Lemma search_range fuel minVolume maxVolume initialStepSize s :
  0 < initialStepSize ->
  Forall (fun ev => minVolume <= called ev /\ called ev <= maxVolume)
    (trace (findOptimalProductionVolumeWith evaluate fuel
              minVolume maxVolume initialStepSize s)).
Proof.
  intros Hstep.
  assert (H10 : 0 <= initialStepSize / 10)
    by (apply Qlt_le_weak, Qlt_shift_div_l; lra).
  assert (H50 : 0 <= initialStepSize / 10 / 5)
    by (apply Qle_shift_div_l; lra).
  unfold findOptimalProductionVolumeWith.
  rewrite andThen_trace. apply Forall_app. split.
  { apply scan_range; lra. }
  destruct (outcome _) as [b1| |]; [|constructor..].
  rewrite andThen_trace. apply Forall_app. split.
  { apply scan_window, H10. }
  destruct (outcome _) as [b2| |]; [|constructor..].
  rewrite andThen_trace. apply Forall_app. split.
  { apply scan_window, H50. }
  destruct (outcome _); constructor.
Qed.

(** A loop with a positive step exits (or is aborted) within the
    iterations it takes to step over its bound. *)
Lemma scan_exits fuel step max volume b s :
  max < volume + inject_Z (Z.of_nat fuel) * step ->
  outcome (scan evaluate fuel step max volume b s) <> Running.
Proof.
  revert volume b s.
  induction fuel as [|fuel IH]; intros volume b s H; simpl scan;
    destruct (Qle_bool volume max) eqn:G; try discriminate;
    apply Qle_bool_iff in G.
  - exfalso. change (inject_Z (Z.of_nat 0)) with 0 in H. lra.
  - destruct (evaluate volume s) as [[e|c] s']; simpl; [discriminate|].
    apply IH.
    rewrite Nat2Z.inj_succ in H. unfold Z.succ in H.
    rewrite inject_Z_plus in H. change (inject_Z 1) with 1 in H.
    set (n := inject_Z (Z.of_nat fuel)) in *.
    assert (Hd : (n + 1) * step == n * step + step) by ring.
    rewrite Hd in H. lra.
Qed.

Lemma scan_window_exits fuel step radius center minVolume maxVolume b s :
  2 * radius < inject_Z (Z.of_nat fuel) * step ->
  outcome (scan evaluate fuel step
             (Math_min maxVolume (center + radius))
             (Math_max minVolume (center - radius)) b s) <> Running.
Proof.
  intros H. apply scan_exits.
  pose proof (Math_min_upper_r maxVolume (center + radius)).
  pose proof (Math_max_lower_r minVolume (center - radius)).
  lra.
Qed.

Lemma budget_enough fuel minVolume maxVolume initialStepSize :
  0 < initialStepSize ->
  (budget minVolume maxVolume initialStepSize <= fuel)%nat ->
  21 <= inject_Z (Z.of_nat fuel) /\
  maxVolume - minVolume < inject_Z (Z.of_nat fuel) * initialStepSize.
Proof.
  intros Hstep Hfuel. unfold budget in Hfuel.
  set (d := (maxVolume - minVolume) / initialStepSize) in *.
  assert (Hz : (21 <= Z.of_nat fuel /\ Qfloor d + 1 <= Z.of_nat fuel)%Z)
    by (split; lia).
  destruct Hz as [H21 Hd]. split.
  - change 21 with (inject_Z 21). rewrite <- Zle_Qle. exact H21.
  - rewrite Zle_Qle in Hd.
    pose proof (Qlt_floor d) as Hfl.
    assert (Hlt : d < inject_Z (Z.of_nat fuel))
      by (eapply Qlt_le_trans; eassumption).
    apply (Qmult_lt_r _ _ initialStepSize Hstep) in Hlt.
    unfold d in Hlt at 1. 
    assert (Hs : (maxVolume - minVolume) / initialStepSize * initialStepSize
                 == maxVolume - minVolume) by (field; lra).
    rewrite Hs in Hlt. exact Hlt.
Qed.

Lemma search_exits fuel minVolume maxVolume initialStepSize s :
  0 < initialStepSize ->
  (budget minVolume maxVolume initialStepSize <= fuel)%nat ->
  outcome (findOptimalProductionVolumeWith evaluate fuel
             minVolume maxVolume initialStepSize s) <> Running.
Proof.
  intros Hstep Hfuel.
  destruct (budget_enough _ _ _ _ Hstep Hfuel) as [H21 Hwide].
  set (n := inject_Z (Z.of_nat fuel)) in *.
  set (t := initialStepSize / 10).
  assert (Ht : initialStepSize == 10 * t) by (unfold t; field).
  assert (Hu : t / 5 == t * (1 # 5)) by field.
  assert (Hn : 21 * t <= n * t)
    by (apply Qmult_le_compat_r; [exact H21 | lra]).
  unfold findOptimalProductionVolumeWith. fold t.
  unfold andThen at 1.
  destruct (outcome (scan evaluate fuel initialStepSize maxVolume minVolume _ s))
    as [b1| |] eqn:O1; simpl; try discriminate.
  { unfold andThen at 1.
    destruct (outcome (scan evaluate fuel t _ _ b1 _)) as [b2| |] eqn:O2;
      simpl; try discriminate.
    { unfold andThen at 1.
      destruct (outcome (scan evaluate fuel (t / 5) _ _ b2 _)) as [b3| |] eqn:O3;
        simpl; try discriminate.
      exfalso. revert O3. apply scan_window_exits.
      change (2 * t < n * (t / 5)). rewrite Hu.
      assert (Hm : n * (t * (1 # 5)) == (n * t) * (1 # 5)) by ring.
      rewrite Hm. lra. }
    exfalso. revert O2. apply scan_window_exits.
    change (2 * initialStepSize < n * t). rewrite Ht. lra. }
  exfalso. revert O1. apply scan_exits.
  change (maxVolume < minVolume + n * initialStepSize). lra.
Qed.

Lemma scan_total fuel step max volume b s :
  total evaluate -> failure (trace (scan evaluate fuel step max volume b s)) = None.
Proof.
  intros Ht. revert volume b s.
  induction fuel as [|fuel IH]; intros volume b s; simpl;
    destruct (Qle_bool volume max); try reflexivity.
  destruct (Ht volume s) as [c Hc].
  destruct (evaluate volume s) as [[e|c'] s']; simpl in *; [discriminate|].
  apply IH.
Qed.

Lemma search_total fuel minVolume maxVolume initialStepSize s :
  total evaluate ->
  failure (trace (findOptimalProductionVolumeWith evaluate fuel
                    minVolume maxVolume initialStepSize s)) = None.
Proof.
  intros Ht. unfold findOptimalProductionVolumeWith.
  rewrite andThen_trace, failure_app, scan_total by exact Ht.
  destruct (outcome _) as [b1| |]; try reflexivity.
  rewrite andThen_trace, failure_app, scan_total by exact Ht.
  destruct (outcome _) as [b2| |]; try reflexivity.
  rewrite andThen_trace, failure_app, scan_total by exact Ht.
  destruct (outcome _); reflexivity.
Qed.

(** With a positive step, enough iterations and a cost function that never
    rejects, the search returns. *)
Lemma search_returns fuel minVolume maxVolume initialStepSize s :
  0 < initialStepSize -> total evaluate ->
  (budget minVolume maxVolume initialStepSize <= fuel)%nat ->
  exists res,
    outcome (findOptimalProductionVolumeWith evaluate fuel
               minVolume maxVolume initialStepSize s) = Returned res.
Proof.
  intros Hstep Ht Hfuel.
  pose proof (search_exits fuel minVolume maxVolume initialStepSize s
                Hstep Hfuel) as Hex.
  pose proof (search_total fuel minVolume maxVolume initialStepSize s Ht) as Hf.
  destruct (search_sound fuel minVolume maxVolume initialStepSize s) as [_ Ho].
  destruct (outcome _) as [res|e|]; [eauto | congruence | contradiction].
Qed.

(** The first call of a search over a non-empty range is at [minVolume]. *)
Lemma search_first_call fuel minVolume maxVolume initialStepSize s :
  minVolume <= maxVolume ->
  exists ev rest,
    trace (findOptimalProductionVolumeWith evaluate (S fuel)
             minVolume maxVolume initialStepSize s) = ev :: rest /\
    called ev = minVolume.
Proof.
  intros Hle. apply Qle_bool_iff in Hle.
  unfold findOptimalProductionVolumeWith. rewrite andThen_trace.
  simpl scan. rewrite Hle.
  destruct (evaluate minVolume s) as [[e|c] s']; simpl; eauto.
Qed.

(** The result of a search that returns is taken from the earliest call
    that gave the least cost. *)
Lemma search_returned_earliest fuel minVolume maxVolume initialStepSize s res :
  minVolume <= maxVolume ->
  outcome (findOptimalProductionVolumeWith evaluate fuel
             minVolume maxVolume initialStepSize s) = Returned res ->
  exists ev c,
    earliestMinimum
      (trace (findOptimalProductionVolumeWith evaluate fuel
                minVolume maxVolume initialStepSize s)) ev c /\
    res = {| volume := Math_round (called ev); cost := Num (Math_round c) |}.
Proof.
  intros Hle Hres.
  destruct (search_sound fuel minVolume maxVolume initialStepSize s) as [Hc Ho].
  rewrite Hres in Ho. destruct Ho as [Hf Hpost].
  destruct fuel as [|fuel].
  { exfalso. revert Hres. unfold findOptimalProductionVolumeWith. simpl scan.
    replace (Qle_bool minVolume maxVolume) with true
      by (symmetry; apply Qle_bool_iff; exact Hle).
    discriminate. }
  destruct (search_first_call fuel minVolume maxVolume initialStepSize s Hle)
    as (ev0 & rest & Htr & _).
  destruct (consistent_earliest _ _ Hc Hf)
    as [[_ Hall]|(ev & c & Hmin & Hlast & _)].
  - exfalso. rewrite Htr in Hall.
    inversion Hall as [|x l Hx _]. subst.
    destruct (answer ev0); exact Hx.
  - exists ev, c. unfold resultOf in Hpost. rewrite Hlast in Hpost. auto.
Qed.

(** A loop whose start is beyond its bound makes no call. *)
Lemma scan_skip fuel step max volume b s :
  max < volume ->
  scan evaluate fuel step max volume b s = returnWith b s.
Proof.
  intros H.
  assert (G : Qle_bool volume max = false).
  { destruct (Qle_bool volume max) eqn:G; [|reflexivity].
    apply Qle_bool_iff in G. exfalso. exact (Qlt_not_le _ _ H G). }
  destruct fuel; simpl; rewrite G; reflexivity.
Qed.

(** A loop whose bound is less than one step away calls once. *)
Lemma scan_once fuel step max volume b s c s' :
  volume <= max -> max < volume + step ->
  evaluate volume s = (inr c, s') ->
  scan evaluate (S fuel) step max volume b s =
  {| outcome := Returned (update volume c b); final := s';
     trace := [{| called := volume; answer := inr c;
                  after := update volume c b |}] |}.
Proof.
  intros Hle Hlt Hev. apply Qle_bool_iff in Hle.
  simpl. rewrite Hle, Hev. rewrite scan_skip by exact Hlt. reflexivity.
Qed.

(** A loop whose step is not positive and whose start is within its bound
    never exits: it uses up any number of iterations, one call each. *)
Lemma scan_runs_on fuel step max volume b s :
  total evaluate -> step <= 0 -> volume <= max ->
  outcome (scan evaluate fuel step max volume b s) = Running /\
  length (trace (scan evaluate fuel step max volume b s)) = fuel.
Proof.
  intros Ht Hstep. revert volume b s.
  induction fuel as [|fuel IH]; intros volume b s Hle;
    pose proof Hle as G; apply Qle_bool_iff in G; simpl; rewrite G.
  - split; reflexivity.
  - destruct (Ht volume s) as [c Hc].
    destruct (evaluate volume s) as [[e|c'] s']; simpl in *; [discriminate|].
    destruct (IH (volume + step) (update volume c' b) s') as [Ho Hl]; [lra|].
    split; [exact Ho | now rewrite Hl].
Qed.

(** Iterations beyond those a loop needs change nothing. *)
Lemma scan_more_fuel fuel fuel' step max volume b s :
  outcome (scan evaluate fuel step max volume b s) <> Running ->
  (fuel <= fuel')%nat ->
  scan evaluate fuel' step max volume b s =
  scan evaluate fuel step max volume b s.
Proof.
  revert fuel' volume b s.
  induction fuel as [|fuel IH]; intros fuel' volume b s Hr Hle.
  - simpl in *. destruct (Qle_bool volume max) eqn:G;
      [now elim Hr | destruct fuel'; simpl; rewrite G; reflexivity].
  - destruct fuel' as [|fuel']; [lia|].
    simpl in *. destruct (Qle_bool volume max); [|reflexivity].
    destruct (evaluate volume s) as [[e|c] s']; [reflexivity|].
    simpl in Hr. rewrite (IH fuel'); [reflexivity | exact Hr | lia].
Qed.

Lemma search_more_fuel fuel fuel' minVolume maxVolume initialStepSize s :
  outcome (findOptimalProductionVolumeWith evaluate fuel
             minVolume maxVolume initialStepSize s) <> Running ->
  (fuel <= fuel')%nat ->
  findOptimalProductionVolumeWith evaluate fuel'
    minVolume maxVolume initialStepSize s =
  findOptimalProductionVolumeWith evaluate fuel
    minVolume maxVolume initialStepSize s.
Proof.
  intros Hr Hle. unfold findOptimalProductionVolumeWith in *.
  apply andThen_exits in Hr. destruct Hr as [Hr1 Hr].
  rewrite (scan_more_fuel fuel fuel') by assumption.
  apply andThen_ext. intros b1 O1. specialize (Hr b1 O1).
  apply andThen_exits in Hr. destruct Hr as [Hr2 Hr].
  rewrite (scan_more_fuel fuel fuel') by assumption.
  apply andThen_ext. intros b2 O2. specialize (Hr b2 O2).
  apply andThen_exits in Hr. destruct Hr as [Hr3 _].
  rewrite (scan_more_fuel fuel fuel') by assumption.
  reflexivity.
Qed.

(** The state a search leaves when every call changes it by [g]. *)
Section State.

Variable g : St -> St.
Hypothesis evaluate_state : forall volume s, snd (evaluate volume s) = g s.
Hypothesis g_idempotent : forall s, g (g s) = g s.

Lemma scan_final fuel step max volume b s :
  final (scan evaluate fuel step max volume b s) =
  stateAfter g s (trace (scan evaluate fuel step max volume b s)).
Proof.
  revert volume b s.
  induction fuel as [|fuel IH]; intros volume b s; simpl;
    destruct (Qle_bool volume max); try reflexivity.
  pose proof (evaluate_state volume s) as Hs.
  destruct (evaluate volume s) as [[e|c] s']; simpl in *; [congruence|].
  rewrite IH. subst s'.
  destruct (trace _); simpl; [reflexivity | apply g_idempotent].
Qed.

Lemma andThen_final {A B} (r : Run St E A) (k : A -> St -> Run St E B) s :
  final r = stateAfter g s (trace r) ->
  (forall a s1, final (k a s1) = stateAfter g s1 (trace (k a s1))) ->
  final (andThen r k) = stateAfter g s (trace (andThen r k)).
Proof.
  intros Hr Hk. unfold andThen.
  destruct (outcome r) as [a| |]; simpl; try exact Hr.
  rewrite Hk, Hr.
  destruct (trace r); simpl; [reflexivity|].
  destruct (trace _); simpl; [reflexivity | apply g_idempotent].
Qed.

Lemma search_final fuel minVolume maxVolume initialStepSize s :
  final (findOptimalProductionVolumeWith evaluate fuel
           minVolume maxVolume initialStepSize s) =
  stateAfter g s
    (trace (findOptimalProductionVolumeWith evaluate fuel
              minVolume maxVolume initialStepSize s)).
Proof.
  unfold findOptimalProductionVolumeWith.
  apply andThen_final; [apply scan_final|]. intros b1 s1.
  apply andThen_final; [apply scan_final|]. intros b2 s2.
  apply andThen_final; [apply scan_final|]. intros b3 s3.
  reflexivity.
Qed.

End State.

End SearchFacts.

(** ** Two cost functions that agree on the states a search goes through *)

Section Agreement.

Variables St E : Type.
Variables evaluate1 evaluate2 : Q -> St -> (E + Q) * St.
Variable inv : St -> Prop.
Hypothesis agree :
  forall volume s, inv s ->
    evaluate1 volume s = evaluate2 volume s /\ inv (snd (evaluate1 volume s)).

Lemma scan_agree fuel step max volume b s :
  inv s ->
  scan evaluate1 fuel step max volume b s =
  scan evaluate2 fuel step max volume b s /\
  inv (final (scan evaluate1 fuel step max volume b s)).
Proof.
  revert volume b s.
  induction fuel as [|fuel IH]; intros volume b s Hs; simpl;
    destruct (Qle_bool volume max); try (split; [reflexivity | exact Hs]).
  destruct (agree volume s Hs) as [He Hi]. rewrite <- He.
  destruct (evaluate1 volume s) as [[e|c] s']; simpl in *;
    [split; [reflexivity | exact Hi]|].
  destruct (IH (volume + step) (update volume c b) s' Hi) as [-> Hf].
  split; [reflexivity | exact Hf].
Qed.

Lemma search_agree fuel minVolume maxVolume initialStepSize s :
  inv s ->
  findOptimalProductionVolumeWith evaluate1 fuel
    minVolume maxVolume initialStepSize s =
  findOptimalProductionVolumeWith evaluate2 fuel
    minVolume maxVolume initialStepSize s.
Proof.
  intros Hs. unfold findOptimalProductionVolumeWith.
  destruct (scan_agree fuel initialStepSize maxVolume minVolume
              {| bestVolume := minVolume; lowestCost := Infinity |} s Hs)
    as [<- H1].
  apply andThen_ext. intros b1 _.
  match goal with
  | |- andThen (scan _ _ ?st ?mx ?v ?b ?s1) _ = _ =>
      destruct (scan_agree fuel st mx v b s1 H1) as [<- H2]
  end.
  apply andThen_ext. intros b2 _.
  match goal with
  | |- andThen (scan _ _ ?st ?mx ?v ?b ?s1) _ = _ =>
      destruct (scan_agree fuel st mx v b s1 H2) as [<- H3]
  end.
  reflexivity.
Qed.

End Agreement.

(** ** Steps that double addition cannot lose *)

Lemma resolves_positive (initialStepSize volume : Q) :
  resolves initialStepSize volume -> 0 < initialStepSize.
Proof.
  intros [H _].
  destruct (Qlt_le_dec 0 initialStepSize) as [Hpos|Hneg]; [exact Hpos|].
  exfalso.
  assert (Hk : 0 <= inject_Z (2 ^ 1000))
    by (apply Qle_bool_imp_le; vm_compute; reflexivity).
  set (k := inject_Z (2 ^ 1000)) in *. clearbody k.
  assert (Hm : 0 <= k * (- initialStepSize))
    by (apply Qmult_le_0_compat; [exact Hk | lra]).
  assert (He : k * (- initialStepSize) == - (k * initialStepSize)) by ring.
  rewrite He in Hm. lra.
Qed.

(** A step that double addition loses at its volume, and that [resolves]
    leaves out: [500 + 1e-14] is [500]. *)
Example lostStep_is_lost :
  PrimFloat.add (fst Double.lostStep) (snd Double.lostStep)
    = fst Double.lostStep /\
  ~ resolves (1 # 100000000000000) 500.
Proof.
  split; [vm_compute; reflexivity|].
  intros [_ H]. apply Qle_bool_iff in H. vm_compute in H. discriminate.
Qed.

Lemma wholeNumbers_positive (minVolume maxVolume initialStepSize : Q) :
  wholeNumbers minVolume maxVolume initialStepSize -> 0 < initialStepSize.
Proof. intros (_ & _ & H & _). lra. Qed.

(** ** The cache *)

Lemma populate_idempotent backend cache :
  populate backend (populate backend cache) = populate backend cache.
Proof.
  unfold populate, loadCostOptimizationModel.
  destruct (costOptimization cache) eqn:Hc; simpl; [now rewrite Hc|].
  destruct backend; reflexivity.
Qed.

Lemma populate_cached backend cache model :
  costOptimization cache = Some model -> populate backend cache = cache.
Proof.
  intros H. unfold populate, loadCostOptimizationModel. now rewrite H.
Qed.

Lemma await_state backend volume cache :
  snd (awaitPredictManufacturingCost backend volume cache) =
  populate backend cache.
Proof.
  unfold awaitPredictManufacturingCost, predictManufacturingCost, populate.
  destruct (loadCostOptimizationModel backend cache). reflexivity.
Qed.

Lemma await_cached backend backend' volume cache :
  costOptimization cache <> None ->
  awaitPredictManufacturingCost backend volume cache =
  awaitPredictManufacturingCost backend' volume cache /\
  costOptimization (snd (awaitPredictManufacturingCost backend volume cache))
  <> None.
Proof.
  intros H.
  unfold awaitPredictManufacturingCost, predictManufacturingCost,
    loadCostOptimizationModel.
  destruct (costOptimization cache) as [m|] eqn:Hc; [|contradiction].
  simpl. rewrite Hc. split; [reflexivity | discriminate].
Qed.

Lemma await_total backend : total (awaitPredictManufacturingCost backend).
Proof.
  intros volume cache.
  unfold awaitPredictManufacturingCost, predictManufacturingCost.
  destruct (loadCostOptimizationModel backend cache). simpl. eauto.
Qed.

(** * The claims *)

(** ** C1: an inverted range or a step that is not positive *)

(** C1, as stated, fails on the calls [search(1000, 100, 50)] and
    [search(100, 1000, 0)]: the first returns volume 1000 with cost
    [Infinity] instead of failing, and the second is still calling the cost
    function after 40 iterations instead of being rejected before any
    call. *)
Lemma C1_counterexample :
  findOptimalProductionVolume Unavailable 50 1000 100 50 emptyCache =
    {| outcome := Returned {| volume := 1000; cost := Infinity |};
       final := emptyCache; trace := [] |} /\
  outcome (findOptimalProductionVolume Unavailable 40 100 1000 0 emptyCache)
    = Running /\
  calls (trace (findOptimalProductionVolume Unavailable 40 100 1000 0 emptyCache))
    = repeat 100 40.
Proof. repeat split; vm_compute; reflexivity. Qed.

(** C1, amended: the search checks nothing about its arguments.  With
    [minVolume > maxVolume] it makes no evaluator call, changes no state and
    returns [{volume: Math.round(minVolume), cost: Infinity}], whatever the
    step; with [minVolume <= maxVolume], [initialStepSize <= 0] and a cost
    function that never rejects, its first loop never exits: any number of
    iterations is used up, with one evaluator call each. *)
Theorem C1_no_range_check :
  forall (St E : Type) (evaluate : Q -> St -> (E + Q) * St)
         (fuel : nat) (minVolume maxVolume initialStepSize : Q) (s : St),
    (maxVolume < minVolume ->
     findOptimalProductionVolumeWith evaluate fuel
       minVolume maxVolume initialStepSize s =
     {| outcome := Returned {| volume := Math_round minVolume; cost := Infinity |};
        final := s; trace := [] |}) /\
    (minVolume <= maxVolume -> initialStepSize <= 0 -> total evaluate ->
     outcome (findOptimalProductionVolumeWith evaluate fuel
                minVolume maxVolume initialStepSize s) = Running /\
     length (trace (findOptimalProductionVolumeWith evaluate fuel
                      minVolume maxVolume initialStepSize s)) = fuel).
Proof.
  intros St E evaluate fuel minVolume maxVolume initialStepSize s. split.
  - intros Hinv. unfold findOptimalProductionVolumeWith.
    rewrite scan_skip by exact Hinv. unfold andThen at 1. simpl.
    rewrite scan_skip.
    2:{ eapply Qle_lt_trans; [apply Math_min_upper|].
        eapply Qlt_le_trans; [exact Hinv | apply Math_max_lower]. }
    unfold andThen at 1. simpl.
    rewrite scan_skip.
    2:{ eapply Qle_lt_trans; [apply Math_min_upper|].
        eapply Qlt_le_trans; [exact Hinv | apply Math_max_lower]. }
    reflexivity.
  - intros Hle Hstep Ht. unfold findOptimalProductionVolumeWith.
    destruct (scan_runs_on St E evaluate fuel initialStepSize maxVolume minVolume
                {| bestVolume := minVolume; lowestCost := Infinity |} s
                Ht Hstep Hle) as [Ho Hl].
    rewrite andThen_trace. unfold andThen at 1. rewrite Ho, app_nil_r.
    split; [reflexivity | exact Hl].
Qed.

Lemma C1_no_range_check_witness :
  findOptimalProductionVolumeWith Samples.constant 30 1000 100 50 tt =
    {| outcome := Returned {| volume := Math_round 1000; cost := Infinity |};
       final := tt; trace := [] |} /\
  outcome (findOptimalProductionVolumeWith Samples.constant 30 100 1000 (-50) tt)
    = Running /\
  length (trace (findOptimalProductionVolumeWith Samples.constant 30
                   100 1000 (-50) tt)) = 30%nat.
Proof.
  split.
  - apply (C1_no_range_check unit Empty_set Samples.constant 30 1000 100 50 tt).
    reflexivity.
  - apply (C1_no_range_check unit Empty_set Samples.constant 30 100 1000 (-50) tt).
    + unfold Qle; simpl; lia.
    + unfold Qle; simpl; lia.
    + intros volume s. exists 7. reflexivity.
Defined.

(** ** C2 and C3: the fallback cost model *)

(** C2: what the code does on the call the claim is about.  With the
    fallback model and at least 21 iterations per loop,
    [search(100, 10000, 500)] returns volume 5050 and cost 14500: the volume
    is 50 away from 5000, five times the final step, and the cost is 4500
    away from 10000.  The volume is the one at which [x = 5000], and the
    cost is [Math.round] of what the cost function gives there. *)
Theorem C2_search_misses_reference_optimum :
  forall fuel : nat,
    (21 <= fuel)%nat ->
    outcome (findOptimalProductionVolume Unavailable fuel 100 10000 500 emptyCache)
      = Returned {| volume := 5050; cost := Num 14500 |} /\
    ~ Qabs (5050 - 5000) <= 10 /\
    ~ Qabs (14500 - 10000) <= 10 /\
    normalizeProductionVolume 5050 * 10000 == 5000 /\
    Math_round (fst (predictManufacturingCost Unavailable 5050 emptyCache))
      = 14500.
Proof.
  intros fuel Hfuel. unfold findOptimalProductionVolume.
  rewrite (search_more_fuel _ _ _ 21 fuel); [|vm_compute; discriminate | exact Hfuel].
  split; [vm_compute; reflexivity|].
  split; [intros H; vm_compute in H; apply H; reflexivity|].
  split; [intros H; vm_compute in H; apply H; reflexivity|].
  split; vm_compute; reflexivity.
Qed.

Lemma C2_search_misses_reference_optimum_witness :
  outcome (findOptimalProductionVolume Unavailable 60 100 10000 500 emptyCache)
    = Returned {| volume := 5050; cost := Num 14500 |}.
Proof.
  refine (proj1 (C2_search_misses_reference_optimum 60 _)). lia.
Defined.

(** C3: what the code returns instead of the parabola
    [100000 * (x - 5000)^2 / 25000000 + 10000].  The fallback model divides
    the parabola by 100000 and [denormalizeCost] maps that back with
    [* (100000 - 5000) + 5000], so [predictManufacturingCost] returns 95% of
    the parabola plus 5000 at every volume.  At volume 5050, where the
    parabola is at its minimum 10000, the code returns 14500, and it returns
    no less anywhere. *)
Theorem C3_cost_is_rescaled :
  (forall volume : Q,
     fst (predictManufacturingCost Unavailable volume emptyCache) ==
     (95 # 100) * fallbackCost volume + 5000) /\
  fallbackCost 5050 == 10000 /\
  fst (predictManufacturingCost Unavailable 5050 emptyCache) == 14500 /\
  (forall volume : Q,
     14500 <= fst (predictManufacturingCost Unavailable volume emptyCache)).
Proof.
  assert (H : forall volume : Q,
             fst (predictManufacturingCost Unavailable volume emptyCache) ==
             (95 # 100) * fallbackCost volume + 5000).
  { intros v.
    unfold predictManufacturingCost, loadCostOptimizationModel, fallbackCost,
      createFallbackModel, denormalizeCost, denormalizeCost_in,
      normalizeProductionVolume, normalizeProductionVolume_in, Math_pow2.
    simpl. field. }
  split; [exact H|]. split; [vm_compute; reflexivity|].
  split; [vm_compute; reflexivity|].
  intros v. rewrite H.
  unfold fallbackCost, Math_pow2.
  set (x := normalizeProductionVolume v * 10000).
  assert (Hsq : 0 <= (x - 5000) ^ 2).
  { simpl. rewrite <- (Qmult_0_l 0). 
    destruct (Qlt_le_dec (x - 5000) 0) as [Hn|Hp].
    - setoid_replace ((x - 5000) * (x - 5000))
        with ((5000 - x) * (5000 - x)) by ring.
      apply Qmult_le_compat_nonneg; split; lra.
    - apply Qmult_le_compat_nonneg; split; lra. }
  set (q := (x - 5000) ^ 2) in *.
  assert (Hd : 100000 * q / 25000000 == q * (1 # 250)) by field.
  rewrite Hd. lra.
Qed.

(** ** C4: a range of one point *)

(** C4, as stated, fails on [search(500, 500, 100)] with the fallback model:
    the cost function is called three times, once per pass, and the cost
    returned is the rounded 94767, not the 928809500/9801 that the cost
    function gives at 500. *)
Lemma C4_counterexample :
  calls (trace (findOptimalProductionVolume Unavailable 100 500 500 100 emptyCache))
    = [500; 500; 500] /\
  outcome (findOptimalProductionVolume Unavailable 100 500 500 100 emptyCache)
    = Returned {| volume := 500; cost := Num 94767 |} /\
  fst (predictManufacturingCost Unavailable 500 emptyCache) == 928809500 # 9801 /\
  ~ 94767 == 928809500 # 9801.
Proof.
  repeat split; try (vm_compute; reflexivity).
  intros H. vm_compute in H. discriminate.
Qed.

(** C4, amended: on a range of one point ([minVolume == maxVolume]) with a
    positive step and a cost function that gives the cost [c] at
    [minVolume], a search that returns has called the cost function exactly
    three times, once in each pass and each time at [minVolume], and returns
    [{volume: Math.round(minVolume), cost: Math.round(c)}].  It does return,
    after one iteration of each loop, when double addition cannot lose its
    step at [minVolume]. *)
Theorem C4_degenerate_range :
  forall (St E : Type) (evaluate : Q -> St -> (E + Q) * St)
         (fuel : nat) (minVolume maxVolume initialStepSize : Q) (s : St) (c : Q),
    minVolume == maxVolume ->
    0 < initialStepSize ->
    (forall s', fst (evaluate minVolume s') = inr c) ->
    (forall res,
       outcome (findOptimalProductionVolumeWith evaluate fuel
                  minVolume maxVolume initialStepSize s) = Returned res ->
       calls (trace (findOptimalProductionVolumeWith evaluate fuel
                       minVolume maxVolume initialStepSize s))
         = [minVolume; minVolume; minVolume] /\
       res = {| volume := Math_round minVolume; cost := Num (Math_round c) |}) /\
    (resolves initialStepSize minVolume -> (1 <= fuel)%nat ->
     exists res,
       outcome (findOptimalProductionVolumeWith evaluate fuel
                  minVolume maxVolume initialStepSize s) = Returned res).
Proof.
  intros St E evaluate fuel minVolume maxVolume initialStepSize s c Heq Hstep Hc.
  destruct fuel as [|fuel].
  { split; [|intros _ Hf; inversion Hf].
    intros res Hres. exfalso. revert Hres.
    unfold findOptimalProductionVolumeWith. simpl scan.
    replace (Qle_bool minVolume maxVolume) with true
      by (symmetry; apply Qle_bool_iff; lra).
    discriminate. }
  assert (H10 : 0 < initialStepSize / 10) by (apply Qlt_shift_div_l; lra).
  assert (H50 : 0 < initialStepSize / 10 / 5) by (apply Qlt_shift_div_l; lra).
  assert (Hev : forall s', exists s'', evaluate minVolume s' = (inr c, s'')).
  { intros s'. specialize (Hc s').
    destruct (evaluate minVolume s') as [a s'']. simpl in Hc. subst a. eauto. }
  assert (Hkeep : update minVolume c {| bestVolume := minVolume; lowestCost := Num c |}
                  = {| bestVolume := minVolume; lowestCost := Num c |}).
  { unfold update. simpl.
    replace (Qltb c c) with false; [reflexivity|].
    symmetry. apply Qltb_false_iff, Qle_refl. }
  destruct (Hev s) as [s1 E1]. destruct (Hev s1) as [s2 E2].
  destruct (Hev s2) as [s3 E3].
  set (b := {| bestVolume := minVolume; lowestCost := Num c |}) in *.
  set (ev := {| called := minVolume; answer := @inr E Q c; after := b |}).
  assert (Hrun :
    findOptimalProductionVolumeWith evaluate (S fuel)
      minVolume maxVolume initialStepSize s =
    {| outcome := Returned {| volume := Math_round minVolume;
                              cost := Num (Math_round c) |};
       final := s3; trace := [ev; ev; ev] |}).
  { unfold findOptimalProductionVolumeWith.
    rewrite (scan_once _ _ _ fuel initialStepSize maxVolume minVolume _ s c s1);
      [|lra|lra|exact E1].
    rewrite andThen_record.
    change (update minVolume c {| bestVolume := minVolume; lowestCost := Infinity |})
      with b.
    change (bestVolume b) with minVolume.
    rewrite (Math_max_left minVolume (minVolume - initialStepSize)) by lra.
    rewrite (Math_min_left maxVolume (minVolume + initialStepSize)) by lra.
    rewrite (scan_once _ _ _ fuel (initialStepSize / 10) maxVolume minVolume _ s1 c s2);
      [|lra|lra|exact E2].
    rewrite andThen_record, Hkeep.
    change (bestVolume b) with minVolume.
    rewrite (Math_max_left minVolume (minVolume - initialStepSize / 10)) by lra.
    rewrite (Math_min_left maxVolume (minVolume + initialStepSize / 10)) by lra.
    rewrite (scan_once _ _ _ fuel (initialStepSize / 10 / 5) maxVolume minVolume _ s2 c s3);
      [|lra|lra|exact E3].
    rewrite andThen_record, Hkeep. reflexivity. }
  rewrite Hrun. cbn [outcome trace]. split.
  - intros res Hres. injection Hres as <-. split; reflexivity.
  - intros _ _. eauto.
Qed.

Lemma C4_degenerate_range_witness :
  calls (trace (findOptimalProductionVolumeWith Samples.flat 1 500 500 100 tt))
    = [500; 500; 500] /\
  outcome (findOptimalProductionVolumeWith Samples.flat 1 500 500 100 tt)
    = Returned {| volume := Math_round 500; cost := Num (Math_round 0) |}.
Proof.
  destruct (C4_degenerate_range unit Empty_set Samples.flat 1 500 500 100 tt 0)
    as [Hpartial Hreturns].
  - reflexivity.
  - reflexivity.
  - intros s'. reflexivity.
  - destruct Hreturns as [res Hres].
    + split; apply Qle_bool_imp_le; vm_compute; reflexivity.
    + apply le_n.
    + destruct (Hpartial res Hres) as [Hcalls Hvalue].
      split; [exact Hcalls|]. rewrite Hres, Hvalue. reflexivity.
Defined.

(** ** C5: the running minimum *)

(** C5: for every cost function and every call of the search, with any
    iteration budget, the value of [lowestCost] after a later evaluator call
    is never above its value after an earlier call, over the calls of all
    three passes taken together; and after each fulfilled call it is no
    higher than the cost that call gave. *)
Theorem C5_lowestCost_never_increases :
  forall (St E : Type) (evaluate : Q -> St -> (E + Q) * St)
         (fuel : nat) (minVolume maxVolume initialStepSize : Q) (s : St),
    StronglySorted neverDearer
      (trace (findOptimalProductionVolumeWith evaluate fuel
                minVolume maxVolume initialStepSize s)) /\
    Forall (fun ev => match answer ev with
                      | inr c => le_number (lowestCost (after ev)) (Num c)
                      | inl _ => True
                      end)
      (trace (findOptimalProductionVolumeWith evaluate fuel
                minVolume maxVolume initialStepSize s)).
Proof.
  intros St E evaluate fuel minVolume maxVolume initialStepSize s.
  destruct (search_sound St E evaluate fuel minVolume maxVolume initialStepSize s)
    as [Hc _].
  split.
  - exact (proj1 (consistent_sorted _ _ Hc)).
  - exact (consistent_tracks _ _ Hc).
Qed.

(** ** C6: the range *)

(** C6: for every cost function and every call with
    [minVolume <= maxVolume] and [initialStepSize > 0], with any iteration
    budget, every volume passed to the cost function, in any of the three
    passes, lies in [[minVolume, maxVolume]]. *)
Theorem C6_range_respect :
  forall (St E : Type) (evaluate : Q -> St -> (E + Q) * St)
         (fuel : nat) (minVolume maxVolume initialStepSize : Q) (s : St),
    minVolume <= maxVolume ->
    0 < initialStepSize ->
    Forall (fun volume => minVolume <= volume /\ volume <= maxVolume)
      (calls (trace (findOptimalProductionVolumeWith evaluate fuel
                       minVolume maxVolume initialStepSize s))).
Proof.
  intros St E evaluate fuel minVolume maxVolume initialStepSize s _ Hstep.
  unfold calls. apply Forall_map.
  apply search_range. exact Hstep.
Qed.

Lemma C6_range_respect_witness :
  Forall (fun volume => 100 <= volume /\ volume <= 1000)
    (calls (trace (findOptimalProductionVolume Unavailable 50 100 1000 100 emptyCache))).
Proof.
  apply (C6_range_respect ModelCache Empty_set
           (awaitPredictManufacturingCost Unavailable) 50 100 1000 100 emptyCache).
  - unfold Qle; simpl; lia.
  - reflexivity.
Defined.

(** ** C7: ties *)

(** C7, as stated, fails on [search(0, 1, 1/2)] with a cost that is 1 below
    volume 1/2 and 0 from there on.  The first three calls are at 0, 1/2 and
    1 with costs 1, 0 and 0, so the earliest call with the least cost is the
    one at 1/2; the search returns volume 1, the volume of the later call
    with the same cost, because the result is [Math.round(bestVolume)]. *)
Lemma C7_counterexample :
  exists res ev,
    outcome (findOptimalProductionVolumeWith Samples.flat 30 0 1 (1 # 2) tt)
      = Returned res /\
    map (fun e => (Qred (called e), answer e))
      (firstn 3 (trace (findOptimalProductionVolumeWith Samples.flat 30
                          0 1 (1 # 2) tt)))
      = [(0, inr 1); (1 # 2, inr 0); (1, inr 0)] /\
    earliestMinimum
      (trace (findOptimalProductionVolumeWith Samples.flat 30 0 1 (1 # 2) tt))
      ev 0 /\
    called ev = 1 # 2 /\
    volume res = 1 /\
    ~ volume res == called ev.
Proof.
  remember (findOptimalProductionVolumeWith Samples.flat 30 0 1 (1 # 2) tt)
    as r eqn:Hr.
  vm_compute in Hr. subst r. cbn [outcome trace].
  eexists. eexists. split; [reflexivity|]. split; [reflexivity|].
  split.
  - eexists [_], _. split; [reflexivity|]. split; [reflexivity|].
    split; repeat constructor; discriminate.
  - split; [reflexivity|]. split; [reflexivity|].
    intros H. vm_compute in H. discriminate.
Qed.

(** C7, amended: for every cost function, every step and every call with
    [minVolume <= maxVolume], the result of a search that returns is taken
    from the earliest call that gave the least cost of all calls of the
    three passes (every earlier call was strictly dearer, no later call was
    cheaper): the returned volume is [Math.round] of that call's volume and
    the returned cost is [Math.round] of that call's cost.  The search does
    return when the cost function never rejects and double addition cannot
    lose the step at [minVolume] or at [maxVolume]. *)
Theorem C7_earliest_minimum_rounded :
  forall (St E : Type) (evaluate : Q -> St -> (E + Q) * St)
         (fuel : nat) (minVolume maxVolume initialStepSize : Q) (s : St),
    minVolume <= maxVolume ->
    (forall res,
       outcome (findOptimalProductionVolumeWith evaluate fuel
                  minVolume maxVolume initialStepSize s) = Returned res ->
       exists ev c,
         earliestMinimum
           (trace (findOptimalProductionVolumeWith evaluate fuel
                     minVolume maxVolume initialStepSize s)) ev c /\
         volume res = Math_round (called ev) /\
         cost res = Num (Math_round c)) /\
    (total evaluate ->
     resolves initialStepSize minVolume ->
     resolves initialStepSize maxVolume ->
     (budget minVolume maxVolume initialStepSize <= fuel)%nat ->
     exists res,
       outcome (findOptimalProductionVolumeWith evaluate fuel
                  minVolume maxVolume initialStepSize s) = Returned res).
Proof.
  intros St E evaluate fuel minVolume maxVolume initialStepSize s Hle. split.
  - intros res Hres.
    destruct (search_returned_earliest St E evaluate fuel minVolume maxVolume
                initialStepSize s res Hle Hres) as (ev & c & Hmin & ->).
    exists ev, c. auto.
  - intros Ht Hlo _ Hfuel.
    apply search_returns;
      [apply (resolves_positive _ _ Hlo) | exact Ht | exact Hfuel].
Qed.

Lemma C7_earliest_minimum_rounded_witness :
  exists res ev c,
    outcome (findOptimalProductionVolumeWith Samples.flat 30 0 1 (1 # 2) tt)
      = Returned res /\
    earliestMinimum
      (trace (findOptimalProductionVolumeWith Samples.flat 30 0 1 (1 # 2) tt))
      ev c /\
    volume res = Math_round (called ev) /\
    cost res = Num (Math_round c).
Proof.
  destruct (C7_earliest_minimum_rounded unit Empty_set Samples.flat 30
              0 1 (1 # 2) tt) as [Hpartial Hreturns].
  - unfold Qle; simpl; lia.
  - destruct Hreturns as [res Hres].
    + intros volume s. eexists. reflexivity.
    + split; apply Qle_bool_imp_le; vm_compute; reflexivity.
    + split; apply Qle_bool_imp_le; vm_compute; reflexivity.
    + vm_compute. lia.
    + destruct (Hpartial res Hres) as (ev & c & Hmin & Hv & Hc).
      exists res, ev, c. auto.
Defined.

(** ** C8: a failing evaluation *)

(** C8, as stated, fails when the model backend is unavailable: the cost
    function does not fail, it answers with the cost of the fallback model,
    which it has stored in the cache; and the search over it returns. *)
Lemma C8_counterexample :
  exists c,
    fst (awaitPredictManufacturingCost Unavailable 5050 emptyCache) = inr c /\
    c == 14500 /\
    costOptimization (snd (awaitPredictManufacturingCost Unavailable 5050 emptyCache))
      = Some createFallbackModel /\
    outcome (findOptimalProductionVolume Unavailable 100 100 10000 500 emptyCache)
      = Returned {| volume := 5050; cost := Num 14500 |}.
Proof.
  eexists. split; [reflexivity|].
  repeat split; vm_compute; reflexivity.
Qed.

(** C8, amended: when the model backend is unavailable and nothing is
    cached, the cost function does not fail: it stores the fallback model in
    the cache and answers with its cost.  An exception of the cost function
    itself is not caught by the search: for every cost function, the call
    that rejects is the last call of the search, no call before it rejected,
    and the search ends with that same exception. *)
Theorem C8_fallback_then_propagation :
  (forall (volume : Q) (cache : ModelCache),
     costOptimization cache = None ->
     awaitPredictManufacturingCost Unavailable volume cache =
     (inr (denormalizeCost
             (predict createFallbackModel (normalizeProductionVolume volume))),
      {| costOptimization := Some createFallbackModel;
         demandForecast := demandForecast cache |})) /\
  (forall (St E : Type) (evaluate : Q -> St -> (E + Q) * St)
          (fuel : nat) (minVolume maxVolume initialStepSize : Q) (s : St)
          (pre post : list (Event E)) (ev : Event E) (e : E),
     trace (findOptimalProductionVolumeWith evaluate fuel
              minVolume maxVolume initialStepSize s) = pre ++ ev :: post ->
     answer ev = inl e ->
     post = [] /\ failure pre = None /\
     outcome (findOptimalProductionVolumeWith evaluate fuel
                minVolume maxVolume initialStepSize s) = Threw e).
Proof.
  split.
  - intros volume cache Hc.
    unfold awaitPredictManufacturingCost, predictManufacturingCost,
      loadCostOptimizationModel.
    rewrite Hc. reflexivity.
  - intros St E evaluate fuel minVolume maxVolume initialStepSize s
      pre post ev e Htr Hev.
    destruct (search_sound St E evaluate fuel minVolume maxVolume
                initialStepSize s) as [Hc Ho].
    rewrite Htr in Hc, Ho.
    destruct (consistent_failure_last _ _ _ _ _ Hc Hev) as (Hpost & Hpre & Hf).
    rewrite Hf in Ho.
    split; [exact Hpost|]. split; [exact Hpre|].
    destruct (outcome _) as [res|e'|].
    + destruct Ho as [Ho _]. discriminate.
    + congruence.
    + discriminate.
Qed.

Lemma C8_fallback_then_propagation_witness :
  length (trace (findOptimalProductionVolumeWith (Samples.failingAt 3) 50
                   0 10 1 0%nat)) = 3%nat /\
  outcome (findOptimalProductionVolumeWith (Samples.failingAt 3) 50 0 10 1 0%nat)
    = Threw (Samples.Rejected 2).
Proof.
  split; [reflexivity|].
  refine (proj2 (proj2 (proj2 C8_fallback_then_propagation nat Samples.exn
            (Samples.failingAt 3) 50%nat 0 10 1 0%nat
            (firstn 2 (trace (findOptimalProductionVolumeWith
                                (Samples.failingAt 3) 50 0 10 1 0%nat)))
            []
            (nth 2 (trace (findOptimalProductionVolumeWith
                              (Samples.failingAt 3) 50 0 10 1 0%nat))
               {| called := 0; answer := inr 0;
                  after := {| bestVolume := 0; lowestCost := Infinity |} |})
            (Samples.Rejected 2) _ _))).
  - vm_compute. reflexivity.
  - vm_compute. reflexivity.
Defined.

(** ** C9: the cache *)

(** C9, as stated, fails: a first search with the backend unavailable
    changes the module-level cache, which then holds the fallback model; a
    second search started in that state with a backend that serves a
    constant model still uses the cached fallback model and returns what
    the first returned, while the same call with a fresh cache returns
    volume 100 and cost 52500. *)
Lemma C9_counterexample :
  costOptimization emptyCache = None /\
  costOptimization
    (final (findOptimalProductionVolume Unavailable 100 100 10000 500 emptyCache))
    = Some createFallbackModel /\
  outcome
    (findOptimalProductionVolume (Available Samples.half) 100 100 10000 500
       (final (findOptimalProductionVolume Unavailable 100 100 10000 500 emptyCache)))
    = Returned {| volume := 5050; cost := Num 14500 |} /\
  outcome
    (findOptimalProductionVolume (Available Samples.half) 100 100 10000 500
       emptyCache)
    = Returned {| volume := 100; cost := Num 52500 |}.
Proof. repeat split; vm_compute; reflexivity. Qed.

(** C9, amended: the one piece of state a search changes is the module-level
    model cache, through the cost function.  A search that makes no
    evaluator call leaves the cache as it found it; one that makes a call
    leaves it as [loadCostOptimizationModel] does, that is unchanged if a
    model was cached and else holding the loaded or the fallback model, the
    [demandForecast] entry being kept.  The cache is shared by all
    invocations: a search started with a cached model runs on that model
    whatever the backend would serve. *)
Theorem C9_cache_is_shared :
  forall (backend : Backend) (fuel : nat)
         (minVolume maxVolume initialStepSize : Q) (cache : ModelCache),
    final (findOptimalProductionVolume backend fuel
             minVolume maxVolume initialStepSize cache) =
    stateAfter (populate backend) cache
      (trace (findOptimalProductionVolume backend fuel
                minVolume maxVolume initialStepSize cache)) /\
    demandForecast (populate backend cache) = demandForecast cache /\
    (costOptimization cache = None ->
     costOptimization (populate backend cache) =
     Some match backend with
          | Available model => model
          | Unavailable => createFallbackModel
          end) /\
    (costOptimization cache <> None ->
     populate backend cache = cache /\
     forall backend',
       findOptimalProductionVolume backend' fuel
         minVolume maxVolume initialStepSize cache =
       findOptimalProductionVolume backend fuel
         minVolume maxVolume initialStepSize cache).
Proof.
  intros backend fuel minVolume maxVolume initialStepSize cache.
  split; [|split; [|split]].
  - unfold findOptimalProductionVolume.
    apply search_final; [apply await_state | apply populate_idempotent].
  - unfold populate, loadCostOptimizationModel.
    destruct (costOptimization cache); [reflexivity|].
    destruct backend; reflexivity.
  - intros Hc. unfold populate, loadCostOptimizationModel. rewrite Hc.
    destruct backend; reflexivity.
  - intros Hc. split.
    + destruct (costOptimization cache) as [m|] eqn:Hm; [|contradiction].
      eapply populate_cached, Hm.
    + intros backend'. unfold findOptimalProductionVolume.
      apply search_agree with (inv := fun c => costOptimization c <> None);
        [|exact Hc].
      intros volume c Hinv. apply await_cached, Hinv.
Qed.

Lemma C9_cache_is_shared_witness :
  findOptimalProductionVolume (Available Samples.half) 30 100 1000 100
    (populate Unavailable emptyCache) =
  findOptimalProductionVolume Unavailable 30 100 1000 100
    (populate Unavailable emptyCache).
Proof.
  refine (proj2 (proj2 (proj2 (proj2
            (C9_cache_is_shared Unavailable 30 100 1000 100
               (populate Unavailable emptyCache)))) _)
            (Available Samples.half)).
  simpl. discriminate.
Defined.

(** ** C10: the demand estimate *)

(** C10, as stated, fails on the features [{price: -1e307, availability: 75,
    stockLevels: 60, leadTimes: 7, orderQuantities: 30}], which are finite
    numbers: the weighted sum times 120 overflows, [prediction] is
    [+Infinity], and [predictDemand] returns [Infinity], which is not an
    integer. *)
Lemma C10_counterexample :
  Double.realValued Double.overflowing = true /\
  Double.valueOf (Double.rawPrediction Double.overflowing)
    = Double.positiveInfinity /\
  Double.predictDemand Double.overflowing = Double.positiveInfinity /\
  (forall n : Z,
     Double.predictDemand Double.overflowing
     <> Double.finite (inject_Z n)).
Proof.
  assert (H : Double.predictDemand Double.overflowing
              = Double.positiveInfinity) by (vm_compute; reflexivity).
  split; [vm_compute; reflexivity|]. split; [vm_compute; reflexivity|].
  split; [exact H|].
  intros n Hn. rewrite H in Hn. discriminate.
Qed.

(** C10, amended: for every feature record of doubles, [predictDemand]
    returns [Math.max(0, Math.round(prediction))] of the double [prediction]
    that the weighted sum with its threshold multipliers comes to in double
    arithmetic.  When [prediction] is finite the result is a non-negative
    integer: 0 when [prediction] is below -1/2 and otherwise the integer
    nearest to [prediction] (within 1/2, a tie going up).  When [prediction]
    has overflowed the result is [Infinity] for [+Infinity] and 0 for
    [-Infinity], and it is [NaN] when [prediction] is [NaN]. *)
Theorem C10_predictDemand_rounds_the_double :
  forall features : Double.Features,
    match Double.valueOf (Double.rawPrediction features) with
    | Double.finite prediction =>
        exists n : Z,
          Double.predictDemand features = Double.finite (inject_Z n) /\
          (0 <= n)%Z /\
          n = Z.max 0 (Qfloor (prediction + (1 # 2))) /\
          ((prediction < - (1 # 2) /\ n = 0%Z) \/
           (prediction - (1 # 2) < inject_Z n /\
            inject_Z n <= prediction + (1 # 2)))
    | Double.positiveInfinity =>
        Double.predictDemand features = Double.positiveInfinity
    | Double.negativeInfinity =>
        Double.predictDemand features = Double.finite 0
    | Double.notANumber =>
        Double.predictDemand features = Double.notANumber
    end.
Proof.
  intros features. unfold Double.predictDemand, Double.Math_round.
  destruct (Double.valueOf (Double.rawPrediction features)) as [p| | |];
    cbn [Double.Math_max]; try reflexivity.
  destruct (round_and_clamp p) as (n & Hn & Hrest).
  exists n. rewrite Hn. split; [reflexivity | exact Hrest].
Qed.

(** The double [prediction] need not be the exact weighted sum.  At price
    0.25 the exact sum is 2939.5, which rounds to 2940; the doubles come to
    2939.4999999999995, and the source returns 2939. *)
Example predictDemand_at_quarter :
  Double.predictDemand Double.quarter = Double.finite 2939 /\
  predictDemand {| price := 1 # 4; availability := 75; stockLevels := 60;
                   leadTimes := 7; orderQuantities := 30 |} = 2940.
Proof. split; vm_compute; reflexivity. Qed.

(** The value of the double nearest to 0.1, and of two doubles that are
    not finite. *)
Example valueOf_samples :
  Double.valueOf Double.tenth
    = Double.finite (3602879701896397 # 36028797018963968) /\
  Double.valueOf PrimFloat.neg_infinity = Double.negativeInfinity /\
  Double.valueOf PrimFloat.nan = Double.notANumber.
Proof. repeat split; vm_compute; reflexivity. Qed.

Example predictDemand_neutral :
  predictDemand Samples.neutral = 850 /\
  Double.predictDemand Double.neutral = Double.finite 850.
Proof. split; vm_compute; reflexivity. Qed.

Example predictDemand_clamped :
  rawPrediction Samples.features0 < 0 /\ predictDemand Samples.features0 = 0.
Proof. split; vm_compute; reflexivity. Qed.

(** * More of the model loader *)

(** ** Scaling of inputs and outputs *)

(** X1: with [min < max], all numbers being far from overflow,
    [normalizeProductionVolume] maps the volumes of [[min, max]] into
    [[0, 1]], [min] to 0 and [max] to 1, and never reverses the order of two
    volumes. *)
Theorem normalizeProductionVolume_range :
  forall value value' min max : Q,
    min < max ->
    moderate min -> moderate max -> moderate value -> moderate value' ->
    (min <= value -> value <= max ->
     0 <= normalizeProductionVolume_in value min max /\
     normalizeProductionVolume_in value min max <= 1) /\
    normalizeProductionVolume_in min min max == 0 /\
    normalizeProductionVolume_in max min max == 1 /\
    (value <= value' ->
     normalizeProductionVolume_in value min max <=
     normalizeProductionVolume_in value' min max).
Proof.
  intros value value' min max Hlt _ _ _ _. unfold normalizeProductionVolume_in.
  assert (Hd : 0 < max - min) by lra.
  assert (Hn : forall v, (v - min) / (max - min) * (max - min) == v - min)
    by (intros v; field; lra).
  assert (Hle : forall v w,
             (v - min) / (max - min) <= (w - min) / (max - min) <-> v <= w).
  { intros v w. rewrite <- (Qmult_le_r _ _ (max - min) Hd), !Hn. split; lra. }
  assert (H0 : (min - min) / (max - min) == 0) by (field; lra).
  assert (H1 : (max - min) / (max - min) == 1) by (field; lra).
  repeat split; try assumption.
  - rewrite <- H0. apply Hle. assumption.
  - rewrite <- H1. apply Hle. assumption.
  - apply Hle.
Qed.

Lemma normalizeProductionVolume_range_witness :
  (100 <= 5050 -> 5050 <= 10000 ->
   0 <= normalizeProductionVolume_in 5050 100 10000 /\
   normalizeProductionVolume_in 5050 100 10000 <= 1) /\
  normalizeProductionVolume_in 100 100 10000 == 0 /\
  normalizeProductionVolume_in 10000 100 10000 == 1 /\
  (5050 <= 6000 ->
   normalizeProductionVolume_in 5050 100 10000 <=
   normalizeProductionVolume_in 6000 100 10000).
Proof.
  apply (normalizeProductionVolume_range 5050 6000 100 10000);
    apply Qle_bool_imp_le || reflexivity; vm_compute; reflexivity.
Defined.

(** ** The cached model *)

(** X2: [loadCostOptimizationModel] memoises.  After a first load, with the
    backend up or down, every later load returns the model of the first
    load and leaves the cache as the first load left it, whatever the
    backend would serve then; so a later [predictManufacturingCost] is
    computed from the model of the first load. *)
Theorem loadCostOptimizationModel_memoises :
  forall (backend backend' : Backend) (cache : ModelCache) (volume : Q),
    loadCostOptimizationModel backend'
      (snd (loadCostOptimizationModel backend cache)) =
    loadCostOptimizationModel backend cache /\
    predictManufacturingCost backend' volume
      (snd (loadCostOptimizationModel backend cache)) =
    (denormalizeCost
       (predict (fst (loadCostOptimizationModel backend cache))
          (normalizeProductionVolume volume)),
     snd (loadCostOptimizationModel backend cache)).
Proof.
  intros backend backend' cache volume.
  assert (H : loadCostOptimizationModel backend'
                (snd (loadCostOptimizationModel backend cache)) =
              loadCostOptimizationModel backend cache).
  { unfold loadCostOptimizationModel.
    destruct (costOptimization cache) as [m|] eqn:Hc; simpl.
    - rewrite Hc. reflexivity.
    - destruct backend; reflexivity. }
  split; [exact H|].
  unfold predictManufacturingCost. rewrite H.
  destruct (loadCostOptimizationModel backend cache). reflexivity.
Qed.

(** ** Demand: monotony and the threshold effects *)

Lemma Math_round_monotone (x y : Q) : x <= y -> Math_round x <= Math_round y.
Proof.
  intros H. unfold Math_round. rewrite <- Zle_Qle.
  apply Qfloor_resp_le. lra.
Qed.

Lemma Math_round_negative (x : Q) : x <= 0 -> Math_round x <= 0.
Proof.
  intros H. change 0 with (Math_round 0). now apply Math_round_monotone.
Qed.

Lemma clamp_monotone (x y : Q) :
  x <= y -> Math_max 0 (Math_round x) <= Math_max 0 (Math_round y).
Proof.
  intros H. apply Q.max_le_compat_l. now apply Math_round_monotone.
Qed.

Lemma clamp_negative (x y : Q) :
  x <= 0 -> Math_max 0 (Math_round x) <= Math_max 0 y.
Proof.
  intros H. apply Q.max_lub; [apply Q.le_max_l|].
  eapply Qle_trans; [apply Math_round_negative, H | apply Q.le_max_l].
Qed.

Ltac thresholds :=
  repeat match goal with
         | |- context [Qltb ?a ?b] =>
             let H := fresh "T" in
             destruct (Qltb a b) eqn:H;
             [apply Qltb_iff in H | apply Qltb_false_iff in H]
         end.

Lemma rawPrediction_sign (features : Features) :
  (0 <= linearPrediction features -> 
   0 <= rawPrediction features /\
   rawPrediction features <= linearPrediction features) /\
  (linearPrediction features <= 0 -> rawPrediction features <= 0).
Proof.
  unfold rawPrediction. fold (linearPrediction features).
  set (p := linearPrediction features).
  split; intros H; thresholds; lra.
Qed.

Lemma linearPrediction_monotone (f g : Features) :
  price f <= price g ->
  availability g <= availability f ->
  stockLevels g <= stockLevels f ->
  leadTimes f <= leadTimes g ->
  orderQuantities g <= orderQuantities f ->
  linearPrediction g <= linearPrediction f.
Proof.
  intros Hp Ha Hs Hl Ho.
  unfold linearPrediction, weightedSum, baseline, weights.price,
    weights.availability, weights.stockLevels, weights.leadTimes,
    weights.orderQuantities, Qdiv.
  change (/ 10) with (1 # 10). change (/ 25) with (1 # 25).
  change (/ 40) with (1 # 40). change (/ 5) with (1 # 5).
  change (/ 20) with (1 # 20).
  lra.
Qed.

(** X4: [predictDemand] is monotone in each feature: a lower price, a
    higher availability, a higher stock level, a shorter lead time or a
    higher order quantity never lowers the estimate, threshold effects and
    rounding included. *)
Theorem predictDemand_monotone :
  forall f g : Features,
    price f <= price g ->
    availability g <= availability f ->
    stockLevels g <= stockLevels f ->
    leadTimes f <= leadTimes g ->
    orderQuantities g <= orderQuantities f ->
    predictDemand g <= predictDemand f.
Proof.
  intros f g Hp Ha Hs Hl Ho.
  pose proof (linearPrediction_monotone f g Hp Ha Hs Hl Ho) as Hlin.
  unfold predictDemand.
  destruct (Qlt_le_dec (linearPrediction g) 0) as [Hneg|Hpos].
  - apply clamp_negative.
    apply (proj2 (rawPrediction_sign g)). lra.
  - apply clamp_monotone.
    unfold rawPrediction. fold (linearPrediction f) (linearPrediction g).
    set (pf := linearPrediction f) in *. set (pg := linearPrediction g) in *.
    thresholds; lra.
Qed.

Lemma predictDemand_monotone_witness :
  predictDemand Samples.features0 <= predictDemand Samples.neutral.
Proof.
  apply (predictDemand_monotone Samples.neutral Samples.features0);
    unfold Qle; simpl; lia.
Defined.

(** X5: the threshold effects never raise the estimate: [predictDemand]
    is at most the clamped and rounded value of
    [baseline + weightedSum * 120], and is 0 whenever that value is not
    positive. *)
Theorem predictDemand_thresholds_lower :
  forall features : Features,
    predictDemand features <=
    Math_max 0 (Math_round (linearPrediction features)) /\
    (linearPrediction features <= 0 -> predictDemand features == 0).
Proof.
  intros features. unfold predictDemand. split.
  - destruct (Qlt_le_dec (linearPrediction features) 0) as [Hneg|Hpos].
    + apply clamp_negative.
      apply (proj2 (rawPrediction_sign features)). lra.
    + apply clamp_monotone.
      apply (proj1 (rawPrediction_sign features)). exact Hpos.
  - intros Hneg. apply Qle_antisym; [|apply Math_max_lower].
    apply Q.max_lub; [apply Qle_refl|].
    apply Math_round_negative.
    apply (proj2 (rawPrediction_sign features)). exact Hneg.
Qed.

Lemma predictDemand_thresholds_lower_witness :
  predictDemand
    {| price := 500; availability := 75; stockLevels := 60;
       leadTimes := 7; orderQuantities := 30 |} == 0.
Proof.
  apply (predictDemand_thresholds_lower
           {| price := 500; availability := 75; stockLevels := 60;
              leadTimes := 7; orderQuantities := 30 |}).
  vm_compute. discriminate.
Defined.

(** ** More about the search, for any cost function *)

Lemma earliestMinimum_least {E} (tr : list (Event E)) ev c ev' c' :
  earliestMinimum tr ev c -> In ev' tr -> answer ev' = inr c' -> c <= c'.
Proof.
  intros (pre & post & Htr & Ha & Hpre & Hpost) Hin Ha'. subst tr.
  apply in_app_or in Hin. destruct Hin as [Hin|[Heq|Hin]].
  - rewrite Forall_forall in Hpre. specialize (Hpre _ Hin).
    unfold dearer in Hpre. rewrite Ha' in Hpre. apply Qlt_le_weak, Hpre.
  - subst ev'. rewrite Ha in Ha'. injection Ha' as <-. apply Qle_refl.
  - rewrite Forall_forall in Hpost. specialize (Hpost _ Hin).
    unfold notCheaper in Hpost. rewrite Ha' in Hpost. exact Hpost.
Qed.

Lemma earliestMinimum_In {E} (tr : list (Event E)) ev c :
  earliestMinimum tr ev c -> In ev tr.
Proof.
  intros (pre & post & Htr & _). subst tr. apply in_or_app. right. now left.
Qed.

Section SearchBounds.

Variables St E : Type.
Variable evaluate : Q -> St -> (E + Q) * St.

(** A loop makes at most as many calls as it takes steps to pass its
    bound, whatever its iteration budget. *)
Lemma scan_calls_bound (n fuel : nat) step max volume b s :
  max < volume + inject_Z (Z.of_nat n) * step ->
  (length (trace (scan evaluate fuel step max volume b s)) <= n)%nat.
Proof.
  revert fuel volume b s.
  induction n as [|n IH]; intros fuel volume b s H.
  - change (inject_Z (Z.of_nat 0)) with 0 in H.
    rewrite scan_skip by lra. simpl. lia.
  - destruct fuel as [|fuel]; simpl;
      destruct (Qle_bool volume max); simpl; try lia.
    destruct (evaluate volume s) as [[e|c] s']; simpl; [lia|].
    apply le_n_S, IH.
    rewrite Nat2Z.inj_succ in H. unfold Z.succ in H.
    rewrite inject_Z_plus in H. change (inject_Z 1) with 1 in H.
    set (m := inject_Z (Z.of_nat n)) in *.
    assert (Hd : (m + 1) * step == m * step + step) by ring.
    rewrite Hd in H. lra.
Qed.

Lemma scan_window_calls_bound (n fuel : nat) step radius center
    minVolume maxVolume b s :
  2 * radius < inject_Z (Z.of_nat n) * step ->
  (length (trace (scan evaluate fuel step
                    (Math_min maxVolume (center + radius))
                    (Math_max minVolume (center - radius)) b s)) <= n)%nat.
Proof.
  intros H. apply scan_calls_bound.
  pose proof (Math_min_upper_r maxVolume (center + radius)).
  pose proof (Math_max_lower_r minVolume (center - radius)).
  lra.
Qed.

Lemma coarse_steps minVolume maxVolume initialStepSize :
  0 < initialStepSize ->
  maxVolume - minVolume <
  inject_Z (Z.of_nat (Z.to_nat
    (Qfloor ((maxVolume - minVolume) / initialStepSize) + 1)))
  * initialStepSize.
Proof.
  intros Hstep.
  set (d := (maxVolume - minVolume) / initialStepSize).
  assert (Hz : (Qfloor d + 1 <= Z.of_nat (Z.to_nat (Qfloor d + 1)))%Z) by lia.
  rewrite Zle_Qle in Hz.
  pose proof (Qlt_floor d) as Hfl.
  assert (Hlt : d < inject_Z (Z.of_nat (Z.to_nat (Qfloor d + 1))))
    by (eapply Qlt_le_trans; eassumption).
  apply (Qmult_lt_r _ _ initialStepSize Hstep) in Hlt.
  unfold d in Hlt at 1.
  assert (Hs : (maxVolume - minVolume) / initialStepSize * initialStepSize
               == maxVolume - minVolume) by (field; lra).
  rewrite Hs in Hlt. exact Hlt.
Qed.

(** With exact additions, a search with a positive step, enough iterations
    and a cost function that never rejects returns, and its result comes
    from the earliest call with the least cost. *)
Lemma search_earliest fuel minVolume maxVolume initialStepSize s :
  0 < initialStepSize ->
  minVolume <= maxVolume ->
  total evaluate ->
  (budget minVolume maxVolume initialStepSize <= fuel)%nat ->
  exists res ev c,
    outcome (findOptimalProductionVolumeWith evaluate fuel
               minVolume maxVolume initialStepSize s) = Returned res /\
    earliestMinimum
      (trace (findOptimalProductionVolumeWith evaluate fuel
                minVolume maxVolume initialStepSize s)) ev c /\
    res = {| volume := Math_round (called ev); cost := Num (Math_round c) |}.
Proof.
  intros Hstep Hle Ht Hfuel.
  destruct (search_returns St E evaluate fuel minVolume maxVolume
              initialStepSize s Hstep Ht Hfuel) as [res Hres].
  destruct (search_returned_earliest St E evaluate fuel minVolume maxVolume
              initialStepSize s res Hle Hres) as (ev & c & Hmin & Hr).
  exists res, ev, c. auto.
Qed.

(** [Math.round] of a volume of the range. *)
Lemma Math_round_in_range (minVolume maxVolume v : Q) :
  minVolume <= v -> v <= maxVolume ->
  minVolume - (1 # 2) < Math_round v /\
  Math_round v <= maxVolume + (1 # 2) /\
  (forall lo hi : Z,
     minVolume == inject_Z lo -> maxVolume == inject_Z hi ->
     minVolume <= Math_round v /\ Math_round v <= maxVolume).
Proof.
  intros Hlo Hhi.
  pose proof (Math_round_near v) as [Hn1 Hn2].
  split; [lra|]. split; [lra|].
  intros lo hi Hlo' Hhi'. unfold Math_round. split.
  - rewrite Hlo'. rewrite <- Zle_Qle.
    rewrite <- (Qfloor_Z lo). apply Qfloor_resp_le. lra.
  - rewrite Hhi'. rewrite <- Zle_Qle.
    assert (H : (Qfloor (v + (1 # 2)) <= Qfloor (inject_Z hi + (1 # 2)))%Z)
      by (apply Qfloor_resp_le; lra).
    assert (Hf : Qfloor (inject_Z hi + (1 # 2)) = hi).
    { pose proof (Qfloor_le (inject_Z hi + (1 # 2))) as Ha.
      pose proof (Qlt_floor (inject_Z hi + (1 # 2))) as Hb.
      rewrite inject_Z_plus in Hb. change (inject_Z 1) with 1 in Hb.
      set (w := Qfloor (inject_Z hi + (1 # 2))) in *.
      assert (H1 : inject_Z w < inject_Z hi + 1) by lra.
      assert (H2 : inject_Z hi < inject_Z w + 1) by lra.
      change 1 with (inject_Z 1) in H1, H2.
      rewrite <- inject_Z_plus in H1, H2.
      rewrite <- Zlt_Qlt in H1, H2. lia. }
    lia.
Qed.

End SearchBounds.

(** X6: with whole-number volumes the work of a search is bounded by its
    arguments alone.  The search is its three passes in sequence, and for
    every cost function and every iteration budget the coarse pass makes at
    most [floor((maxVolume - minVolume) / step) + 1] calls (none if that is
    negative), the refinement pass at most 21 and the final pass at most
    11, wherever the previous pass left [bestVolume]. *)
Theorem search_calls_bounded :
  forall (St E : Type) (evaluate : Q -> St -> (E + Q) * St)
         (fuel : nat) (minVolume maxVolume initialStepSize : Q) (s : St),
    wholeNumbers minVolume maxVolume initialStepSize ->
    findOptimalProductionVolumeWith evaluate fuel
      minVolume maxVolume initialStepSize s =
    andThen (coarsePass evaluate fuel minVolume maxVolume initialStepSize s)
      (fun b1 s1 =>
    andThen (refinementPass evaluate fuel minVolume maxVolume initialStepSize
               b1 s1)
      (fun b2 s2 =>
    andThen (finalPass evaluate fuel minVolume maxVolume initialStepSize b2 s2)
      (fun b3 s3 =>
    returnWith {| volume := Math_round (bestVolume b3);
                  cost := Math_round_number (lowestCost b3) |} s3))) /\
    (length (calls (trace (coarsePass evaluate fuel
                             minVolume maxVolume initialStepSize s)))
     <= Z.to_nat (Qfloor ((maxVolume - minVolume) / initialStepSize) + 1))%nat /\
    (forall b1 s1,
       (length (calls (trace (refinementPass evaluate fuel
                                minVolume maxVolume initialStepSize b1 s1)))
        <= 21)%nat) /\
    (forall b2 s2,
       (length (calls (trace (finalPass evaluate fuel
                                minVolume maxVolume initialStepSize b2 s2)))
        <= 11)%nat).
Proof.
  intros St E evaluate fuel minVolume maxVolume initialStepSize s Hwhole.
  pose proof (wholeNumbers_positive _ _ _ Hwhole) as Hstep.
  set (t := initialStepSize / 10).
  assert (Ht : initialStepSize == 10 * t) by (unfold t; field).
  assert (Hu : t / 5 == t * (1 # 5)) by field.
  split; [reflexivity|].
  unfold calls. split; [|split].
  - rewrite length_map. unfold coarsePass.
    apply scan_calls_bound.
    pose proof (coarse_steps minVolume maxVolume initialStepSize Hstep).
    lra.
  - intros b1 s1. rewrite length_map. unfold refinementPass. fold t.
    apply scan_window_calls_bound.
    change (inject_Z (Z.of_nat 21)) with 21. lra.
  - intros b2 s2. rewrite length_map. unfold finalPass. fold t.
    apply scan_window_calls_bound.
    change (inject_Z (Z.of_nat 11)) with 11. rewrite Hu. lra.
Qed.

Lemma search_calls_bounded_witness :
  (length (calls (trace (coarsePass (awaitPredictManufacturingCost Unavailable)
                           100 100 10000 500 emptyCache)))
   <= Z.to_nat (Qfloor ((10000 - 100) / 500) + 1))%nat.
Proof.
  apply (search_calls_bounded ModelCache Empty_set
           (awaitPredictManufacturingCost Unavailable) 100 100 10000 500
           emptyCache).
  split; [exists 100%Z; reflexivity|]. split; [exists 500%Z; reflexivity|].
  repeat split; apply Qle_bool_imp_le; vm_compute; reflexivity.
Defined.

(** X7: [Math.round] can take the result out of the range.  For every cost
    function and every call with [minVolume <= maxVolume] and a positive
    step, the volume that a search returns is an integer and is
    [Math.round] of a volume in [[minVolume, maxVolume]]: it lies in
    [(minVolume - 1/2, maxVolume + 1/2]], and in the range itself when both
    bounds are integers.  The search does return when the cost function
    never rejects and double addition cannot lose the step at [minVolume]
    or at [maxVolume]. *)
Theorem search_result_near_range :
  forall (St E : Type) (evaluate : Q -> St -> (E + Q) * St)
         (fuel : nat) (minVolume maxVolume initialStepSize : Q) (s : St),
    0 < initialStepSize ->
    minVolume <= maxVolume ->
    (forall res,
       outcome (findOptimalProductionVolumeWith evaluate fuel
                  minVolume maxVolume initialStepSize s) = Returned res ->
       exists z : Z,
         volume res = inject_Z z /\
         minVolume - (1 # 2) < volume res /\
         volume res <= maxVolume + (1 # 2) /\
         (forall lo hi : Z,
            minVolume == inject_Z lo -> maxVolume == inject_Z hi ->
            minVolume <= volume res /\ volume res <= maxVolume)) /\
    (total evaluate ->
     resolves initialStepSize minVolume ->
     resolves initialStepSize maxVolume ->
     (budget minVolume maxVolume initialStepSize <= fuel)%nat ->
     exists res,
       outcome (findOptimalProductionVolumeWith evaluate fuel
                  minVolume maxVolume initialStepSize s) = Returned res).
Proof.
  intros St E evaluate fuel minVolume maxVolume initialStepSize s Hstep Hle.
  split.
  - intros res Hres.
    destruct (search_returned_earliest St E evaluate fuel minVolume maxVolume
                initialStepSize s res Hle Hres) as (ev & c & Hmin & ->).
    pose proof (search_range St E evaluate fuel minVolume maxVolume
                  initialStepSize s Hstep) as Hrange.
    rewrite Forall_forall in Hrange.
    destruct (Hrange ev (earliestMinimum_In _ _ _ Hmin)) as [Hlo Hhi].
    exists (Qfloor (called ev + (1 # 2))). cbn [volume].
    split; [reflexivity|].
    apply Math_round_in_range; assumption.
  - intros Ht _ _ Hfuel. apply search_returns; assumption.
Qed.

Lemma search_result_near_range_witness :
  exists res (z : Z),
    outcome (findOptimalProductionVolumeWith Samples.flat 30 0 1 (1 # 2) tt)
      = Returned res /\
    volume res = inject_Z z /\
    0 - (1 # 2) < volume res /\
    volume res <= 1 + (1 # 2) /\
    (forall lo hi : Z,
       0 == inject_Z lo -> 1 == inject_Z hi ->
       0 <= volume res /\ volume res <= 1).
Proof.
  destruct (search_result_near_range unit Empty_set Samples.flat 30
              0 1 (1 # 2) tt) as [Hpartial Hreturns].
  - reflexivity.
  - unfold Qle; simpl; lia.
  - destruct Hreturns as [res Hres].
    + intros v s. eexists. reflexivity.
    + split; apply Qle_bool_imp_le; vm_compute; reflexivity.
    + split; apply Qle_bool_imp_le; vm_compute; reflexivity.
    + vm_compute. lia.
    + destruct (Hpartial res Hres) as (z & Hz & Hrest).
      exists res, z. auto.
Defined.

Example search_result_outside_range :
  outcome (findOptimalProductionVolumeWith Samples.constant 30
             (1 # 5) (2 # 5) (1 # 10) tt)
  = Returned {| volume := 0; cost := Num 7 |}.
Proof. vm_compute. reflexivity. Qed.

(** ** The search over a cost that depends on the volume alone *)

Section PureCost.

Variables St E : Type.
Variable F : Q -> Q.
Variable g : St -> St.

Lemma costFunction_total : total (@costFunction St E F g).
Proof. intros volume s. exists (F volume). reflexivity. Qed.

Lemma scan_answers fuel step max volume b s :
  Forall (fun ev => answer ev = inr (F (called ev)))
    (trace (scan (@costFunction St E F g) fuel step max volume b s)).
Proof.
  revert volume b s.
  induction fuel as [|fuel IH]; intros volume b s; simpl;
    destruct (Qle_bool volume max); simpl; constructor.
  - reflexivity.
  - apply IH.
Qed.

Lemma search_answers fuel minVolume maxVolume initialStepSize s :
  Forall (fun ev => answer ev = inr (F (called ev)))
    (trace (findOptimalProductionVolumeWith (@costFunction St E F g) fuel
              minVolume maxVolume initialStepSize s)).
Proof.
  unfold findOptimalProductionVolumeWith.
  rewrite andThen_trace. apply Forall_app. split; [apply scan_answers|].
  destruct (outcome _) as [b1| |]; [|constructor..].
  rewrite andThen_trace. apply Forall_app. split; [apply scan_answers|].
  destruct (outcome _) as [b2| |]; [|constructor..].
  rewrite andThen_trace. apply Forall_app. split; [apply scan_answers|].
  destruct (outcome _); constructor.
Qed.

(** The loop calls at every volume of its grid that is within its bound. *)
Lemma scan_visits_grid fuel step max volume b s k :
  0 < step ->
  outcome (scan (@costFunction St E F g) fuel step max volume b s) <> Running ->
  gridPoint step volume k <= max ->
  exists ev,
    In ev (trace (scan (@costFunction St E F g) fuel step max volume b s)) /\
    called ev = gridPoint step volume k.
Proof.
  intros Hstep.
  assert (Hgrid : forall (n : nat) (v : Q), v <= gridPoint step v n).
  { intros n. induction n as [|n IHn]; intros v; simpl; [apply Qle_refl|].
    specialize (IHn (v + step)). lra. }
  revert fuel volume b s.
  induction k as [|k IH]; intros fuel volume b s Hr Hk; simpl in Hk.
  - apply Qle_bool_iff in Hk.
    destruct fuel as [|fuel]; simpl in *; rewrite Hk in *; [now elim Hr|].
    eexists. split; [left; reflexivity | reflexivity].
  - assert (G : Qle_bool volume max = true).
    { apply Qle_bool_iff. pose proof (Hgrid k (volume + step)). lra. }
    destruct fuel as [|fuel]; simpl in *; rewrite G in *; [now elim Hr|].
    simpl in *.
    destruct (IH fuel (volume + step) (update volume (F volume) b) (g s) Hr Hk)
      as (ev & Hin & Hc).
    exists ev. split; [right; exact Hin | exact Hc].
Qed.

End PureCost.

(** The result of a search over a cost that depends on the volume alone
    costs no more than any volume of the coarse grid. *)
Lemma search_beats_grid :
  forall (St E : Type) (F : Q -> Q) (g : St -> St)
         (fuel : nat) (minVolume maxVolume initialStepSize : Q) (s : St)
         (k : nat),
    0 < initialStepSize ->
    (budget minVolume maxVolume initialStepSize <= fuel)%nat ->
    gridPoint initialStepSize minVolume k <= maxVolume ->
    exists res v,
      outcome (findOptimalProductionVolumeWith (@costFunction St E F g) fuel
                 minVolume maxVolume initialStepSize s) = Returned res /\
      res = {| volume := Math_round v; cost := Num (Math_round (F v)) |} /\
      F v <= F (gridPoint initialStepSize minVolume k).
Proof.
  intros St E F g fuel minVolume maxVolume initialStepSize s k Hstep Hfuel Hk.
  assert (Hgrid : forall (n : nat) (v : Q), v <= gridPoint initialStepSize v n).
  { intros n. induction n as [|n IHn]; intros v; simpl; [apply Qle_refl|].
    specialize (IHn (v + initialStepSize)). lra. }
  assert (Hle : minVolume <= maxVolume)
    by (eapply Qle_trans; [apply (Hgrid k) | exact Hk]).
  destruct (search_earliest St E (@costFunction St E F g) fuel minVolume
              maxVolume initialStepSize s Hstep Hle
              (costFunction_total St E F g) Hfuel)
    as (res & ev & c & Hres & Hmin & Hr).
  pose proof (search_answers St E F g fuel minVolume maxVolume
                initialStepSize s) as Hans.
  rewrite Forall_forall in Hans.
  pose proof (Hans ev (earliestMinimum_In _ _ _ Hmin)) as Hev.
  assert (Hc : c = F (called ev)).
  { destruct Hmin as (pre & post & _ & Ha & _). rewrite Ha in Hev.
    now injection Hev. }
  pose proof (search_exits St E (@costFunction St E F g) fuel minVolume
                maxVolume initialStepSize s Hstep Hfuel) as Hex.
  unfold findOptimalProductionVolumeWith in Hex.
  apply andThen_exits in Hex. destruct Hex as [Hex1 _].
  destruct (scan_visits_grid St E F g fuel initialStepSize maxVolume minVolume
              {| bestVolume := minVolume; lowestCost := Infinity |} s k
              Hstep Hex1 Hk) as (ev' & Hin & Hcalled).
  assert (Hin' : In ev'
            (trace (findOptimalProductionVolumeWith (@costFunction St E F g)
                      fuel minVolume maxVolume initialStepSize s))).
  { unfold findOptimalProductionVolumeWith. rewrite andThen_trace.
    apply in_or_app. left. exact Hin. }
  exists res, (called ev). split; [exact Hres|]. split; [now rewrite <- Hc|].
  rewrite <- Hc, <- Hcalled.
  eapply earliestMinimum_least; [exact Hmin | exact Hin' | apply Hans, Hin'].
Qed.


(** X8: with whole-number volumes and a cost that depends on the volume
    alone, the search never does worse than its coarse grid: it returns the
    rounded volume and the rounded cost of a volume whose cost is at most
    the cost at every volume [minVolume + k * step] within the range. *)
Theorem search_beats_coarse_grid :
  forall (St E : Type) (F : Q -> Q) (g : St -> St)
         (fuel : nat) (minVolume maxVolume initialStepSize : Q) (s : St)
         (k : nat),
    wholeNumbers minVolume maxVolume initialStepSize ->
    (budget minVolume maxVolume initialStepSize <= fuel)%nat ->
    gridPoint initialStepSize minVolume k <= maxVolume ->
    exists res v,
      outcome (findOptimalProductionVolumeWith (@costFunction St E F g) fuel
                 minVolume maxVolume initialStepSize s) = Returned res /\
      res = {| volume := Math_round v; cost := Num (Math_round (F v)) |} /\
      F v <= F (gridPoint initialStepSize minVolume k).
Proof.
  intros St E F g fuel minVolume maxVolume initialStepSize s k Hwhole Hfuel Hk.
  apply search_beats_grid;
    [apply (wholeNumbers_positive _ _ _ Hwhole) | assumption..].
Qed.

Lemma search_beats_coarse_grid_witness :
  exists res v,
    outcome (findOptimalProductionVolumeWith
               (@costFunction unit Empty_set (fun v => (v - 3) * (v - 3))
                  (fun s => s))
               40 0 10 1 tt) = Returned res /\
    res = {| volume := Math_round v;
             cost := Num (Math_round ((v - 3) * (v - 3))) |} /\
    (v - 3) * (v - 3) <= (gridPoint 1 0 7 - 3) * (gridPoint 1 0 7 - 3).
Proof.
  apply (search_beats_coarse_grid unit Empty_set
           (fun v => (v - 3) * (v - 3)) (fun s => s) 40 0 10 1 tt 7).
  - split; [exists 0%Z; reflexivity|]. split; [exists 1%Z; reflexivity|].
    repeat split; apply Qle_bool_imp_le; vm_compute; reflexivity.
  - vm_compute. lia.
  - vm_compute. discriminate.
Defined.

(** ** The loop in double arithmetic *)

(** X19: the loop of the search in double arithmetic, at a volume within
    its bound and with a cost function that never rejects.  If
    [volume + step] is [volume] again, as for [500 + 1e-14], the step is
    lost and the loop never exits: it is still running after any number of
    iterations, and every one of its calls is at [volume].  If
    [volume + step] is beyond the bound, the loop exits after this one
    call. *)
Theorem step_lost_or_resolved :
  forall (St E : Type)
         (evaluate : PrimFloat.float -> St -> (E + PrimFloat.float) * St)
         (fuel : nat) (step max volume : PrimFloat.float)
         (b : Double.Best) (s : St),
    Double.total evaluate ->
    PrimFloat.leb volume max = true ->
    (PrimFloat.add volume step = volume ->
     Double.outcome (Double.scan evaluate fuel step max volume b s) = Running /\
     Double.calls (Double.scan evaluate fuel step max volume b s)
       = repeat volume fuel) /\
    (PrimFloat.leb (PrimFloat.add volume step) max = false ->
     (exists b',
        Double.outcome (Double.scan evaluate (S fuel) step max volume b s)
        = Returned b') /\
     Double.calls (Double.scan evaluate (S fuel) step max volume b s)
       = [volume]).
Proof.
  intros St E evaluate fuel step max volume b s Ht Hle. split.
  - intros Hlost. revert b s.
    induction fuel as [|fuel IH]; intros b s; simpl; rewrite Hle.
    + split; reflexivity.
    + destruct (Ht volume s) as [c Hc].
      destruct (evaluate volume s) as [[e|c'] s']; simpl in *; [discriminate|].
      rewrite Hlost.
      destruct (IH (Double.update volume c' b) s') as [Ho Hcalls].
      rewrite Ho, Hcalls. split; reflexivity.
  - intros Hout. simpl. rewrite Hle.
    destruct (Ht volume s) as [c Hc].
    destruct (evaluate volume s) as [[e|c'] s']; simpl in *; [discriminate|].
    destruct fuel; simpl; rewrite Hout; simpl; eauto.
Qed.

Lemma step_lost_or_resolved_witness :
  (Double.outcome
     (Double.scan Double.constant 1000 (snd Double.lostStep)
        (fst Double.lostStep) (fst Double.lostStep)
        {| Double.bestVolume := fst Double.lostStep;
           Double.lowestCost := PrimFloat.infinity |} tt) = Running /\
   Double.calls
     (Double.scan Double.constant 1000 (snd Double.lostStep)
        (fst Double.lostStep) (fst Double.lostStep)
        {| Double.bestVolume := fst Double.lostStep;
           Double.lowestCost := PrimFloat.infinity |} tt)
     = repeat (fst Double.lostStep) 1000) /\
  Double.calls
    (Double.scan Double.constant 1001 (fst Double.lostStep)
       (fst Double.lostStep) (fst Double.lostStep)
       {| Double.bestVolume := fst Double.lostStep;
          Double.lowestCost := PrimFloat.infinity |} tt)
    = [fst Double.lostStep].
Proof.
  split.
  - apply (step_lost_or_resolved unit Empty_set Double.constant 1000).
    + intros volume s. eexists. reflexivity.
    + vm_compute. reflexivity.
    + vm_compute. reflexivity.
  - apply (step_lost_or_resolved unit Empty_set Double.constant 1000
             (fst Double.lostStep) (fst Double.lostStep) (fst Double.lostStep)).
    + intros volume s. eexists. reflexivity.
    + vm_compute. reflexivity.
    + vm_compute. reflexivity.
Defined.

(** * The supply chain data service *)

Module SupplyChainFacts.

Import SupplyChain.

(** ** Sets and objects *)

Lemma existsb_eqb (value : String.string) (seen : list String.string) :
  existsb (String.eqb value) seen = true <-> In value seen.
Proof.
  rewrite existsb_exists. split.
  - intros (x & Hin & Heq). apply String.eqb_eq in Heq. now subst.
  - intros Hin. exists value. split; [exact Hin | apply String.eqb_refl].
Qed.

Lemma uniqueFrom_spec (values seen : list String.string) :
  NoDup (uniqueFrom seen values) /\
  forall x, In x (uniqueFrom seen values) <-> In x values /\ ~ In x seen.
Proof.
  revert seen. induction values as [|v values IH]; intros seen; simpl.
  - split; [constructor | intros x; tauto].
  - destruct (existsb (String.eqb v) seen) eqn:Hs.
    + apply existsb_eqb in Hs. destruct (IH seen) as [Hnd Hin].
      split; [exact Hnd|]. intros x. rewrite Hin. split.
      * tauto.
      * intros [[->|Hx] Hn]; [contradiction | tauto].
    + assert (Hn : ~ In v seen).
      { intros Hin. apply existsb_eqb in Hin. congruence. }
      destruct (IH (v :: seen)) as [Hnd Hin]. split.
      * constructor; [|exact Hnd]. rewrite Hin. simpl. tauto.
      * intros x. simpl. rewrite Hin. simpl.
        destruct (String.string_dec v x) as [->|Hne]; tauto.
Qed.

Lemma unique_indexes (field : Item -> String.string) (rows : list Item) :
  indexes field rows (unique (map field rows)).
Proof.
  destruct (uniqueFrom_spec (map field rows) []) as [Hnd Hin].
  split; [exact Hnd|]. intros key. unfold unique. rewrite Hin, in_map_iff.
  simpl. split.
  - intros [(item & Hf & Hi) _]. eauto.
  - intros (item & Hi & Hf). split; [eauto | tauto].
Qed.

Lemma uniqueFrom_NoDup (values seen : list String.string) :
  NoDup values -> (forall x, In x values -> ~ In x seen) ->
  uniqueFrom seen values = values.
Proof.
  revert seen. induction values as [|v values IH]; intros seen Hnd Hs; simpl.
  - reflexivity.
  - inversion Hnd as [|? ? Hv Hnd']. subst.
    destruct (existsb (String.eqb v) seen) eqn:He.
    + apply existsb_eqb in He. exfalso. apply (Hs v); [now left | exact He].
    + f_equal. apply IH; [exact Hnd'|].
      intros x Hx [<-|Hin]; [contradiction|].
      apply (Hs x); [now right | exact Hin].
Qed.

Lemma fold_push {A B} (f : A -> B) (keys : list A) (acc : list B) :
  fold_left (fun acc k => acc ++ [f k]) keys acc = acc ++ map f keys.
Proof.
  revert acc. induction keys as [|k keys IH]; intros acc; simpl.
  - now rewrite app_nil_r.
  - rewrite IH, <- app_assoc. reflexivity.
Qed.

Lemma getKey_setKey {A} (key key' : String.string) (value : A) obj :
  getKey key' (setKey key value obj) =
  if String.eqb key key' then Some value else getKey key' obj.
Proof.
  induction obj as [|[k v] obj IH]; simpl.
  - reflexivity.
  - destruct (String.eqb k key) eqn:He; simpl.
    + apply String.eqb_eq in He. subst k.
      destruct (String.eqb key key'); reflexivity.
    + rewrite IH. destruct (String.eqb k key') eqn:Hk; [|reflexivity].
      apply String.eqb_eq in Hk. subst k.
      destruct (String.eqb key key') eqn:Hs; [|reflexivity].
      apply String.eqb_eq in Hs. subst key.
      rewrite String.eqb_refl in He. discriminate.
Qed.

Lemma filter_nonempty (field : Item -> String.string) (rows : list Item) key :
  (exists item, In item rows /\ field item = key) ->
  filter (fun item => String.eqb (field item) key) rows <> [].
Proof.
  intros (item & Hin & Hf) He.
  assert (H : In item (filter (fun i => String.eqb (field i) key) rows)).
  { apply filter_In. split; [exact Hin|]. subst. apply String.eqb_refl. }
  rewrite He in H. exact H.
Qed.

(** ** Loading *)

Lemma loadData_complete_nonempty (results : list Item) (this : SupplyChainData) :
  results <> [] ->
  loadData_complete results this =
  {| data := results; isLoaded := true;
     productTypes := unique (map Product_type results);
     suppliers := unique (map Supplier_name results);
     locations := unique (map Location results);
     transportModes := unique (map Transportation_modes results);
     carriers := unique (map Shipping_carriers results) |}.
Proof.
  intros Hne. destruct results as [|r results]; [congruence|]. reflexivity.
Qed.

Lemma count_by_key (field : Item -> String.string)
    (keys : list String.string) (rows : list Item) :
  NoDup keys -> (forall item, In item rows -> In (field item) keys) ->
  list_sum (map (fun k =>
                   length (filter (fun item => String.eqb (field item) k) rows))
              keys)
  = length rows.
Proof.
  intros Hnd. induction rows as [|item rows IH]; intros Hall.
  - simpl. clear. induction keys as [|k keys IH]; simpl; [reflexivity|].
    exact IH.
  - simpl length. rewrite <- IH by (intros i Hi; apply Hall; now right).
    assert (Hin : In (field item) keys) by (apply Hall; now left).
    clear IH Hall. revert Hnd Hin.
    induction keys as [|k keys IHk]; intros Hnd Hin; [contradiction|].
    inversion Hnd as [|? ? Hk Hnd']. subst. simpl.
    destruct (String.eqb (field item) k) eqn:He.
    + apply String.eqb_eq in He. subst k. simpl. f_equal. f_equal.
      clear -Hk. induction keys as [|k' keys IH']; simpl; [reflexivity|].
      destruct (String.eqb (field item) k') eqn:He.
      * apply String.eqb_eq in He. subst. simpl in Hk. tauto.
      * rewrite IH' by (simpl in Hk; tauto). reflexivity.
    + destruct Hin as [->|Hin]; [rewrite String.eqb_refl in He; discriminate|].
      rewrite IHk by assumption. lia.
Qed.

Lemma indexes_covers (field : Item -> String.string) rows keys :
  indexes field rows keys -> forall item, In item rows -> In (field item) keys.
Proof. intros [_ H] item Hin. apply H. eauto. Qed.

(** X10: once a file with at least one row is loaded, the instance holds
    the rows, and each of its five lists (product types, suppliers,
    locations, transport modes, carriers) holds every value of its column
    exactly once; a column without repeated values is listed in the order
    of the rows, whichever of the five it is. *)
Theorem loadData_complete_metadata :
  forall (results : list Item) (this : SupplyChainData),
    results <> [] ->
    data (loadData_complete results this) = results /\
    isLoaded (loadData_complete results this) = true /\
    metadataOf (loadData_complete results this) /\
    (NoDup (map Product_type results) ->
     productTypes (loadData_complete results this) = map Product_type results) /\
    (NoDup (map Supplier_name results) ->
     suppliers (loadData_complete results this) = map Supplier_name results) /\
    (NoDup (map Location results) ->
     locations (loadData_complete results this) = map Location results) /\
    (NoDup (map Transportation_modes results) ->
     transportModes (loadData_complete results this)
     = map Transportation_modes results) /\
    (NoDup (map Shipping_carriers results) ->
     carriers (loadData_complete results this) = map Shipping_carriers results).
Proof.
  intros results this Hne.
  rewrite (loadData_complete_nonempty results this Hne).
  unfold metadataOf. cbn [data isLoaded productTypes suppliers locations
                           transportModes carriers].
  repeat split; try apply unique_indexes;
    intros Hnd; apply uniqueFrom_NoDup; (exact Hnd || intros x _ []).
Qed.

Lemma loadData_complete_metadata_witness :
  productTypes (loadData_complete sampleRows constructor)
  = sampleProductTypes /\
  metadataOf (loadData_complete sampleRows constructor).
Proof.
  split; [reflexivity|].
  apply (loadData_complete_metadata sampleRows constructor). discriminate.
Defined.

(** X12: the supplier report counts every row once.  After a file with at
    least one row is loaded, [getSupplierPerformance] has one entry per
    supplier, in the order of [suppliers]; every entry counts the rows of
    its supplier, which are at least one, and lists their locations once
    each; and the counts of all entries add up to the number of rows. *)
Theorem getSupplierPerformance_counts :
  forall (results : list Item) (this : SupplyChainData),
    results <> [] ->
    map supplier (getSupplierPerformance (loadData_complete results this))
    = suppliers (loadData_complete results this) /\
    Forall
      (fun entry =>
         (1 <= totalProducts entry)%nat /\
         totalProducts entry =
           length (getDataBySupplier (loadData_complete results this)
                     (supplier entry)) /\
         indexes Location
           (getDataBySupplier (loadData_complete results this) (supplier entry))
           (supplierLocations entry))
      (getSupplierPerformance (loadData_complete results this)) /\
    list_sum (map totalProducts
                (getSupplierPerformance (loadData_complete results this)))
    = length results.
Proof.
  intros results this Hne.
  rewrite (loadData_complete_nonempty results this Hne).
  pose proof (unique_indexes Supplier_name results) as [Hnd Hin].
  unfold getSupplierPerformance. cbn [suppliers].
  rewrite fold_push. cbn [app]. rewrite !map_map. cbn [supplier totalProducts].
  split; [apply map_id|]. split.
  - apply Forall_map, Forall_forall. intros name Hname.
    cbn [supplier totalProducts supplierLocations].
    unfold getDataBySupplier. cbn [data].
    assert (Hrows : filter (fun item => String.eqb (Supplier_name item) name)
                      results <> [])
      by (apply filter_nonempty, Hin, Hname).
    set (rows := filter _ results) in *.
    split; [destruct rows; [congruence | simpl; lia]|].
    split; [reflexivity | apply unique_indexes].
  - unfold getDataBySupplier. cbn [data].
    apply count_by_key; [exact Hnd|].
    intros item Hi. apply Hin. eauto.
Qed.

Lemma getSupplierPerformance_counts_witness :
  list_sum (map totalProducts
              (getSupplierPerformance (loadData_complete sampleRows constructor)))
  = length sampleRows.
Proof.
  apply (getSupplierPerformance_counts sampleRows constructor). discriminate.
Defined.

Lemma fold_setKey_constant {A} (value : A) (keys : list String.string) obj key :
  In key keys \/ getKey key obj = Some value ->
  getKey key (fold_left (fun o k => setKey k value o) keys obj) = Some value.
Proof.
  revert obj. induction keys as [|k keys IH]; intros obj H; simpl.
  - destruct H as [[]|H]. exact H.
  - apply IH. rewrite getKey_setKey.
    destruct (String.eqb k key) eqn:He; [now right|].
    destruct H as [[->|H]|H]; [|now left | now right].
    rewrite String.eqb_refl in He. discriminate.
Qed.

(** X13: loading a file without rows keeps the lists of the previous load.
    After such a load the instance holds no rows, but its product types and
    suppliers are those it had before; [getSalesData] then reports every
    such product type with totals 0 and an average price that is not
    finite, and [getSupplierPerformance] reports every such supplier with
    no rows and averages that are not finite. *)
Theorem loadData_complete_empty_is_stale :
  forall this : SupplyChainData,
    data (loadData_complete [] this) = [] /\
    isLoaded (loadData_complete [] this) = true /\
    productTypes (loadData_complete [] this) = productTypes this /\
    suppliers (loadData_complete [] this) = suppliers this /\
    (forall type,
       In type (productTypes this) ->
       getKey type (getSalesData (loadData_complete [] this))
       = Some {| totalSales := 0; totalRevenue := 0; averagePrice := None |}) /\
    getSupplierPerformance (loadData_complete [] this)
    = map (fun name => {| supplier := name; avgLeadTime := None;
                          avgDefectRate := None; totalProducts := 0;
                          supplierLocations := [] |})
        (suppliers this).
Proof.
  intros this. unfold loadData_complete, extractMetadata.
  cbn [data isLoaded productTypes suppliers length Nat.eqb negb orb].
  repeat split.
  - intros type Hin. unfold getSalesData, getDataByProductType.
    cbn [data productTypes filter].
    apply (fold_setKey_constant
             {| totalSales := 0; totalRevenue := 0; averagePrice := None |}).
    now left.
  - unfold getSupplierPerformance, getDataBySupplier.
    cbn [data suppliers filter]. rewrite fold_push. reflexivity.
Qed.

End SupplyChainFacts.

(** * The dashboard's inventory helpers *)

Lemma Qfloor_at_least (n : Z) (y : Q) : (n <= Qfloor y)%Z <-> inject_Z n <= y.
Proof.
  split; intros H.
  - eapply Qle_trans; [|apply Qfloor_le]. rewrite <- Zle_Qle. exact H.
  - rewrite <- (Qfloor_Z n). apply Qfloor_resp_le. exact H.
Qed.

Lemma Math_round_at_least (n : Z) (x : Q) :
  inject_Z n <= Math_round x <-> inject_Z n - (1 # 2) <= x.
Proof.
  unfold Math_round. rewrite <- Zle_Qle, Qfloor_at_least. split; lra.
Qed.

Lemma getProgressBarVariant_thresholds (percentage : Q) :
  (Dashboard.getProgressBarVariant percentage = Dashboard.danger
   <-> 85 <= percentage) /\
  (Dashboard.getProgressBarVariant percentage = Dashboard.info
   <-> percentage < 30).
Proof.
  unfold Dashboard.getProgressBarVariant.
  thresholds; split; split; intros H; try discriminate; try reflexivity;
    try lra.
Qed.

(** X16: for a warehouse with a positive capacity and a stock between 0 and
    that capacity, [calculateUsagePercentage] is a whole number from 0 to
    100; the progress bar is red ([danger]) when the stock is at least 85%
    of the capacity and only when it is at least 84% of it, and blue
    ([info]) when the stock is at most 29% of the capacity and only when it
    is at most 30% of it. *)
Theorem usage_percentage_variant :
  forall stock capacity : Q,
    0 < capacity -> 0 <= stock -> stock <= capacity ->
    exists (percentage : Q) (z : Z),
      Dashboard.calculateUsagePercentage stock capacity = Some percentage /\
      percentage = inject_Z z /\
      0 <= percentage /\ percentage <= 100 /\
      ((85 # 100) * capacity <= stock ->
       Dashboard.getProgressBarVariant percentage = Dashboard.danger) /\
      (Dashboard.getProgressBarVariant percentage = Dashboard.danger ->
       (84 # 100) * capacity <= stock) /\
      (stock <= (29 # 100) * capacity ->
       Dashboard.getProgressBarVariant percentage = Dashboard.info) /\
      (Dashboard.getProgressBarVariant percentage = Dashboard.info ->
       stock <= (30 # 100) * capacity).
Proof.
  intros stock capacity Hc H0 H1.
  unfold Dashboard.calculateUsagePercentage, SupplyChain.divide.
  assert (Hne : Qeq_bool capacity 0 = false).
  { destruct (Qeq_bool capacity 0) eqn:He; [|reflexivity].
    apply Qeq_bool_iff in He. lra. }
  rewrite Hne.
  set (r := stock / capacity).
  assert (Hr : r * capacity == stock) by (unfold r; field; lra).
  clearbody r.
  assert (Hcmp : forall q : Q, q <= r <-> q * capacity <= stock).
  { intros q. rewrite <- Hr. symmetry. apply Qmult_le_r. exact Hc. }
  assert (Hr0 : 0 <= r) by (apply Hcmp; lra).
  assert (Hr1 : r <= 1).
  { apply Qnot_lt_le. intros Hlt.
    assert (H : 1 * capacity < r * capacity)
      by (apply Qmult_lt_r; assumption).
    lra. }
  exists (Math_round (r * 100)), (Qfloor (r * 100 + (1 # 2))).
  split; [reflexivity|]. split; [reflexivity|].
  destruct (getProgressBarVariant_thresholds (Math_round (r * 100)))
    as [Hdanger Hinfo].
  pose proof (Math_round_near (r * 100)) as [Hn1 Hn2].
  assert (Hred : Dashboard.getProgressBarVariant (Math_round (r * 100))
                 = Dashboard.danger <-> (169 # 200) * capacity <= stock).
  { rewrite Hdanger. change 85 with (inject_Z 85).
    rewrite Math_round_at_least. change (inject_Z 85) with 85.
    rewrite <- Hcmp. split; lra. }
  assert (Hblue : Dashboard.getProgressBarVariant (Math_round (r * 100))
                  = Dashboard.info <-> stock < (59 # 200) * capacity).
  { rewrite Hinfo. split.
    + intros Hlt. apply Qnot_le_lt. intros Hge.
      apply Hcmp in Hge.
      assert (H : inject_Z 30 <= Math_round (r * 100))
        by (apply Math_round_at_least; change (inject_Z 30) with 30; lra).
      change (inject_Z 30) with 30 in H. lra.
    + intros Hlt. apply Qnot_le_lt. intros Hge.
      change 30 with (inject_Z 30) in Hge.
      apply Math_round_at_least in Hge. change (inject_Z 30) with 30 in Hge.
      assert (H : (59 # 200) <= r) by lra.
      apply Hcmp in H. lra. }
  split; [|split; [|repeat split]].
  - change 0 with (inject_Z 0). apply Math_round_at_least.
    change (inject_Z 0) with 0. lra.
  - apply Qnot_lt_le. intros Hlt.
    assert (H : inject_Z 101 <= Math_round (r * 100)).
    { unfold Math_round in Hlt |- *.
      set (m := Qfloor (r * 100 + (1 # 2))) in *.
      rewrite <- Zle_Qle.
      change 100 with (inject_Z 100) in Hlt. rewrite <- Zlt_Qlt in Hlt. lia. }
    apply Math_round_at_least in H. change (inject_Z 101) with 101 in H. lra.
  - intros H. apply Hred. lra.
  - intros H. apply Hred in H. lra.
  - intros H. apply Hblue. lra.
  - intros H. apply Hblue in H. lra.
Qed.

Lemma usage_percentage_variant_witness :
  exists (percentage : Q) (z : Z),
    Dashboard.calculateUsagePercentage 1250 2000 = Some percentage /\
    percentage = inject_Z z /\
    0 <= percentage /\ percentage <= 100 /\
    ((85 # 100) * 2000 <= 1250 ->
     Dashboard.getProgressBarVariant percentage = Dashboard.danger) /\
    (Dashboard.getProgressBarVariant percentage = Dashboard.danger ->
     (84 # 100) * 2000 <= 1250) /\
    (1250 <= (29 # 100) * 2000 ->
     Dashboard.getProgressBarVariant percentage = Dashboard.info) /\
    (Dashboard.getProgressBarVariant percentage = Dashboard.info ->
     1250 <= (30 # 100) * 2000).
Proof.
  apply (usage_percentage_variant 1250 2000).
  - reflexivity.
  - unfold Qle; simpl; lia.
  - unfold Qle; simpl; lia.
Defined.

(** * The optimization panel *)

Module OptimizationFacts.

Import Optimization.

Section WithModel.

Variable backend : Backend.
Variable model : Model.

Lemma serves_populate cache :
  serves backend model cache -> serves backend model (populate backend cache).
Proof.
  unfold serves, populate, loadCostOptimizationModel.
  destruct (costOptimization cache) as [m|] eqn:Hc; simpl.
  - now rewrite Hc.
  - destruct backend; simpl; auto.
Qed.

Lemma predict_with_model volume cache :
  serves backend model cache ->
  predictManufacturingCost backend volume cache =
  (costWith model volume, populate backend cache).
Proof.
  unfold serves, predictManufacturingCost, populate, costWith.
  destruct (loadCostOptimizationModel backend cache) as [m c].
  simpl. now intros ->.
Qed.

Lemma await_with_model volume cache :
  serves backend model cache ->
  awaitPredictManufacturingCost backend volume cache =
  @costFunction ModelCache Empty_set (costWith model) (populate backend)
    volume cache /\
  serves backend model (snd (awaitPredictManufacturingCost backend volume cache)).
Proof.
  intros H. unfold awaitPredictManufacturingCost, costFunction.
  rewrite (predict_with_model volume cache H). simpl.
  split; [reflexivity | apply serves_populate, H].
Qed.

(** The chart loop plots the cost at the volumes of the coarse grid. *)
Lemma chartLoop_plots (n : nat) :
  forall fuel step max vol labels0 costs0 cache,
    serves backend model cache -> 0 < step ->
    max < vol + inject_Z (Z.of_nat n) * step -> (n <= fuel)%nat ->
    exists plotted cache',
      chartLoop fuel backend step max vol labels0 costs0 cache =
      (Some {| labels := labels0 ++ plotted;
               costs := costs0 ++ map (costWith model) plotted |}, cache') /\
      Forall (fun l => exists k, l = gridPoint step vol k /\ l <= max) plotted /\
      (vol <= max -> exists rest, plotted = vol :: rest) /\
      (cache' = cache \/ cache' = populate backend cache).
Proof.
  induction n as [|n IH];
    intros fuel step max vol labels0 costs0 cache Hs Hstep Hn Hfuel.
  - change (inject_Z (Z.of_nat 0)) with 0 in Hn.
    assert (G : Qle_bool vol max = false).
    { destruct (Qle_bool vol max) eqn:G; [|reflexivity].
      apply Qle_bool_iff in G. lra. }
    exists [], cache. destruct fuel; simpl; rewrite G, !app_nil_r.
    + repeat split; auto. intros H. lra.
    + repeat split; auto. intros H. lra.
  - destruct fuel as [|fuel]; [lia|]. simpl.
    destruct (Qle_bool vol max) eqn:G.
    + apply Qle_bool_iff in G.
      rewrite (predict_with_model vol cache Hs).
      rewrite Nat2Z.inj_succ in Hn. unfold Z.succ in Hn.
      rewrite inject_Z_plus in Hn. change (inject_Z 1) with 1 in Hn.
      set (m := inject_Z (Z.of_nat n)) in *.
      assert (Hd : (m + 1) * step == m * step + step) by ring.
      rewrite Hd in Hn.
      destruct (IH fuel step max (vol + step) (labels0 ++ [vol])
                  (costs0 ++ [costWith model vol]) (populate backend cache)
                  (serves_populate cache Hs) Hstep ltac:(lra) ltac:(lia))
        as (plotted & cache' & Hrun & Hall & _ & Hc).
      exists (vol :: plotted), cache'. rewrite Hrun.
      rewrite <- !app_assoc. simpl. repeat split.
      * constructor.
        -- exists 0%nat. split; [reflexivity | exact G].
        -- eapply Forall_impl; [|exact Hall].
           intros l (k & Hk & Hl). exists (S k). split; assumption.
      * intros _. eauto.
      * right. destruct Hc as [->| ->];
          [reflexivity | apply populate_idempotent].
    + exists [], cache. rewrite !app_nil_r. repeat split; auto.
      intros H. apply Qle_bool_iff in H. congruence.
Qed.

End WithModel.

Lemma predictCost_shows_model_cost backend st cache :
  predictedCost (fst (predictCost backend st cache)) =
    Some (costWith (fst (loadCostOptimizationModel backend cache))
            (productionVolume st)) /\
  isLoading (fst (predictCost backend st cache)) = false /\
  snd (predictCost backend st cache) = populate backend cache.
Proof.
  unfold predictCost. cbn [started productionVolume].
  rewrite (predict_with_model backend
             (fst (loadCostOptimizationModel backend cache))
             (productionVolume st) cache eq_refl).
  repeat split.
Qed.


Lemma Forall_combine_map {A B} (P : A * B -> Prop) (f : A -> B) (l : list A) :
  Forall (fun x => P (x, f x)) l -> Forall P (combine l (map f l)).
Proof.
  induction 1 as [|x l Hx _ IH]; simpl; constructor; assumption.
Qed.

(** X17: the optimum that [runOptimization] reports is consistent with the
    curve it plots.  With volumes within [10^12], [minVolume <= maxVolume]
    and a step of at least 1, the handler comes to its end with loading
    off, no error, the search result in [optimalVolume] and a chart whose
    labels start at [minVolume], lie in the range and are as many as its
    costs; every plotted point is a volume the search called and the cost
    that call gave, and the reported cost is at most the rounded value of
    every plotted cost.  The cache is left as the first load left it. *)
Theorem runOptimization_consistent :
  forall (fuel : nat) (backend : Backend) (st : State) (cache : ModelCache),
    1 <= stepSize st ->
    - 10 ^ 12 <= minVolume st ->
    minVolume st <= maxVolume st ->
    maxVolume st <= 10 ^ 12 ->
    (budget (minVolume st) (maxVolume st) (stepSize st) <= fuel)%nat ->
    exists result chart rest,
      runOptimization fuel backend st cache =
      (true,
       {| productionVolume := productionVolume st;
          predictedCost := predictedCost st;
          minVolume := minVolume st; maxVolume := maxVolume st;
          stepSize := stepSize st;
          optimalVolume := Some result; costChartData := Some chart;
          isLoading := false; optimizationDone := true; error := None |},
       populate backend cache) /\
      outcome (findOptimalProductionVolume backend fuel
                 (minVolume st) (maxVolume st) (stepSize st) cache)
      = Returned result /\
      labels chart = minVolume st :: rest /\
      Forall (fun l => minVolume st <= l /\ l <= maxVolume st) (labels chart) /\
      length (costs chart) = length (labels chart) /\
      Forall
        (fun point =>
           exists ev,
             In ev (trace (findOptimalProductionVolume backend fuel
                             (minVolume st) (maxVolume st) (stepSize st) cache)) /\
             called ev = fst point /\ answer ev = inr (snd point))
        (combine (labels chart) (costs chart)) /\
      Forall (fun c => le_number (cost result) (Num (Math_round c)))
        (costs chart).
Proof.
  intros fuel backend st cache Hstep1 _ Hle _ Hfuel.
  assert (Hstep : 0 < stepSize st) by lra. clear Hstep1.
  set (model := fst (loadCostOptimizationModel backend cache)).
  set (lo := minVolume st) in *. set (hi := maxVolume st) in *.
  set (step := stepSize st) in *.
  assert (Hs : fst (loadCostOptimizationModel backend cache) = model)
    by reflexivity.
  assert (Hagree :
    findOptimalProductionVolume backend fuel lo hi step cache =
    findOptimalProductionVolumeWith
      (@costFunction ModelCache Empty_set (costWith model) (populate backend))
      fuel lo hi step cache).
  { unfold findOptimalProductionVolume.
    apply search_agree
      with (inv := fun c => fst (loadCostOptimizationModel backend c) = model);
      [|exact Hs].
    intros v c Hc. apply await_with_model, Hc. }
  destruct (budget_enough fuel lo hi step Hstep Hfuel) as [_ Hwide].
  destruct (search_earliest ModelCache Empty_set _ fuel lo hi step cache
              Hstep Hle (costFunction_total ModelCache Empty_set
                           (costWith model) (populate backend)) Hfuel)
    as (res & ev0 & c0 & Hres & _ & _).
  pose proof (search_final ModelCache Empty_set
                (awaitPredictManufacturingCost backend) (populate backend)
                (await_state backend) (populate_idempotent backend)
                fuel lo hi step cache) as Hfinal.
  fold (findOptimalProductionVolume backend fuel lo hi step cache) in Hfinal.
  assert (Hserves : fst (loadCostOptimizationModel backend
                           (final (findOptimalProductionVolume backend fuel
                                     lo hi step cache))) = model).
  { rewrite Hfinal. destruct (trace _); simpl; [exact Hs|].
    apply serves_populate, Hs. }
  destruct (chartLoop_plots backend model fuel fuel step hi lo [] []
              (final (findOptimalProductionVolume backend fuel lo hi step cache))
              Hserves Hstep ltac:(lra) (le_n fuel))
    as (plotted & cache' & Hrun & Hall & Hhead & Hc).
  destruct (Hhead Hle) as (rest & ->).
  rewrite <- Hagree in Hres.
  unfold runOptimization.
  cbn [started minVolume maxVolume stepSize productionVolume predictedCost
       optimalVolume costChartData isLoading optimizationDone error].
  fold lo hi step. rewrite Hres, Hrun. cbn [app].
  exists res, {| labels := lo :: rest;
                 costs := map (costWith model) (lo :: rest) |}, rest.
  assert (Hcache : cache' = populate backend cache).
  { destruct Hc as [->| ->]; rewrite Hfinal.
    - rewrite Hagree.
      destruct fuel as [|fuel']; [unfold budget in Hfuel; lia|].
      destruct (search_first_call ModelCache Empty_set
                  (@costFunction ModelCache Empty_set (costWith model)
                     (populate backend)) fuel' lo hi step cache Hle)
        as (e1 & r1 & -> & _). reflexivity.
    - destruct (trace _); simpl;
        [reflexivity | apply populate_idempotent]. }
  rewrite Hcache.
  split; [reflexivity|]. split; [reflexivity|].
  cbn [labels costs]. split; [reflexivity|]. split.
  { assert (Hgrid : forall (n : nat) (v : Q), v <= gridPoint step v n).
    { intros n. induction n as [|n IHn]; intros v; simpl; [apply Qle_refl|].
      specialize (IHn (v + step)). lra. }
    eapply Forall_impl; [|exact Hall].
    intros l (k & -> & Hl). split; [apply Hgrid | exact Hl]. }
  split; [apply length_map|].
  split.
  { apply Forall_combine_map. eapply Forall_impl; [|exact Hall].
    intros l (k & -> & Hl). cbn [fst snd].
    pose proof (search_exits ModelCache Empty_set
                  (@costFunction ModelCache Empty_set (costWith model)
                     (populate backend))
                  fuel lo hi step cache Hstep Hfuel) as Hex.
    unfold findOptimalProductionVolumeWith in Hex.
    apply andThen_exits in Hex. destruct Hex as [Hex1 _].
    destruct (scan_visits_grid ModelCache Empty_set (costWith model)
                (populate backend) fuel step hi lo
                {| bestVolume := lo; lowestCost := Infinity |} cache k
                Hstep Hex1 Hl) as (ev & Hin & Hcalled).
    assert (Hin' : In ev (trace (findOptimalProductionVolume backend fuel
                                   lo hi step cache))).
    { rewrite Hagree. unfold findOptimalProductionVolumeWith.
      rewrite andThen_trace. apply in_or_app. left. exact Hin. }
    exists ev. split; [exact Hin'|]. split; [exact Hcalled|].
    rewrite <- Hcalled.
    pose proof (search_answers ModelCache Empty_set (costWith model)
                  (populate backend) fuel lo hi step cache) as Hans.
    rewrite Forall_forall in Hans. apply Hans.
    rewrite <- Hagree. exact Hin'. }
  apply Forall_map. eapply Forall_impl; [|exact Hall].
  intros l (k & -> & Hl).
  destruct (search_beats_grid ModelCache Empty_set (costWith model)
              (populate backend) fuel lo hi step cache k Hstep Hfuel Hl)
    as (res' & v & Hres' & -> & Hv).
  rewrite <- Hagree, Hres in Hres'. injection Hres' as ->.
  cbn [cost le_number]. apply Math_round_monotone, Hv.
Qed.

Lemma runOptimization_consistent_witness :
  exists result chart rest,
    runOptimization 40 Unavailable initial emptyCache =
    (true,
     {| productionVolume := productionVolume initial;
        predictedCost := predictedCost initial;
        minVolume := minVolume initial; maxVolume := maxVolume initial;
        stepSize := stepSize initial;
        optimalVolume := Some result; costChartData := Some chart;
        isLoading := false; optimizationDone := true; error := None |},
     populate Unavailable emptyCache) /\
    outcome (findOptimalProductionVolume Unavailable 40
               (minVolume initial) (maxVolume initial) (stepSize initial)
               emptyCache)
    = Returned result /\
    labels chart = minVolume initial :: rest /\
    Forall (fun l => minVolume initial <= l /\ l <= maxVolume initial)
      (labels chart) /\
    length (costs chart) = length (labels chart) /\
    Forall
      (fun point =>
         exists ev,
           In ev (trace (findOptimalProductionVolume Unavailable 40
                           (minVolume initial) (maxVolume initial)
                           (stepSize initial) emptyCache)) /\
           called ev = fst point /\ answer ev = inr (snd point))
      (combine (labels chart) (costs chart)) /\
    Forall (fun c => le_number (cost result) (Num (Math_round c)))
      (costs chart).
Proof.
  apply (runOptimization_consistent 40 Unavailable initial emptyCache).
  - apply Qle_bool_imp_le; vm_compute; reflexivity.
  - apply Qle_bool_imp_le; vm_compute; reflexivity.
  - unfold Qle; simpl; lia.
  - apply Qle_bool_imp_le; vm_compute; reflexivity.
  - vm_compute. lia.
Defined.

End OptimizationFacts.

